(** * classroom-backend: the relational schema and the request pipeline

    The repository declares its data model in [src/db/schema.ts] with
    drizzle-orm's PostgreSQL table builder, and its HTTP pipeline in
    [src/index.ts] as an ordered list of Express layers.

    Both files are declarative: the schema is a list of column, index and
    foreign-key declarations that the database enforces, the pipeline is a
    list of layers that Express walks for every request.  The embedding keeps
    the declarations as data, written column by column as in the source, and
    gives them their meaning through two small interpreters:

    - [Engine]: INSERT and DELETE over a store of rows, enforcing exactly the
      constraints that the declarations of [Schema] carry (column types,
      NOT NULL, defaults, identity columns, primary keys, unique constraints
      and unique indexes, foreign keys with their ON DELETE action);
    - [Express]: the walk of Express over the registered layers, with the
      behaviour of the middleware that the entry files register.
*)

From Stdlib Require Import List String Ascii ZArith Bool Lia.
Import ListNotations.
Local Open Scope string_scope.
Local Open Scope Z_scope.

(** Reverse application, so that a column reads as in the source:
    [integer "capacity" "capacity" |> notNull |> default (VInt 50)]. *)
Notation "x |> f" := (f x) (at level 45, left associativity, only parsing).

(* ================================================================== *)
(** * Values and rows *)
(* ================================================================== *)

(** A cell of a row.  [VText] carries text, varchar and enum labels,
    [VTime] a timestamp as a number of ticks, [VJson] the stored text of a
    jsonb document (structurally opaque here). *)
Inductive value : Type :=
| VNull
| VText (s : string)
| VInt (z : Z)
| VBool (b : bool)
| VTime (t : Z)
| VJson (j : string).

Definition value_eqb (a b : value) : bool :=
  match a, b with
  | VNull, VNull => true
  | VText s, VText s' => String.eqb s s'
  | VInt z, VInt z' => Z.eqb z z'
  | VBool x, VBool y => Bool.eqb x y
  | VTime t, VTime t' => Z.eqb t t'
  | VJson j, VJson j' => String.eqb j j'
  | _, _ => false
  end.

(** SQL equality of keys: NULL is equal to nothing, not even to NULL. *)
Definition key_eqb (a b : value) : bool :=
  match a with
  | VNull => false
  | _ => value_eqb a b
  end.

(** A row is keyed by the property names of the drizzle table object
    ([userId], [classId], ...), which are the names the application sees. *)
Definition row : Type := list (string * value).

Fixpoint lookup (k : string) (r : row) : option value :=
  match r with
  | [] => None
  | (k', v) :: r' => if String.eqb k k' then Some v else lookup k r'
  end.

(** Reading a property of a selected row; a missing property reads as NULL. *)
Definition get (k : string) (r : row) : value :=
  match lookup k r with
  | Some v => v
  | None => VNull
  end.

(* ================================================================== *)
(** * The schema builder (drizzle-orm/pg-core) *)
(* ================================================================== *)

Inductive table : Type :=
| user | session | account | verification
| departments | subjects | classes | enrollments.

Definition all_tables : list table :=
  [user; session; account; verification;
   departments; subjects; classes; enrollments].

Definition table_eqb (a b : table) : bool :=
  match a, b with
  | user, user | session, session | account, account
  | verification, verification | departments, departments
  | subjects, subjects | classes, classes | enrollments, enrollments => true
  | _, _ => false
  end.

Inductive col_type : Type :=
| text
| varchar (length : nat)
| integer
| boolean
| timestamp
| jsonb
| pgEnum (name : string) (labels : list string).

(** The ON DELETE action of a foreign key.  A reference declared without
    options gets PostgreSQL's default, NO ACTION. *)
Inductive fk_action : Type :=
| no_action
| restrict
| cascade.

Record reference : Type := mkReference {
  ref_table : table;
  ref_column : string;
  onDelete : fk_action
}.

Inductive default_decl : Type :=
| NoDefault
| Default (v : value)            (* .default(v) *)
| DefaultNow                     (* .defaultNow() *)
| GeneratedAlwaysAsIdentity.     (* .generatedAlwaysAsIdentity() *)

Record column : Type := mkColumn {
  col_key : string;              (* property name in the table object *)
  col_sql : string;              (* column name in the database *)
  col_ty : col_type;
  col_primaryKey : bool;
  col_notNull : bool;
  col_unique : bool;
  col_default : default_decl;
  col_onUpdateNow : bool;        (* .$onUpdate(() => new Date()) *)
  col_references : option reference
}.

Definition mk (ty : col_type) (key sql : string) : column :=
  mkColumn key sql ty false false false NoDefault false None.

Definition primaryKey (c : column) : column :=
  mkColumn (col_key c) (col_sql c) (col_ty c) true (col_notNull c)
    (col_unique c) (col_default c) (col_onUpdateNow c) (col_references c).

Definition notNull (c : column) : column :=
  mkColumn (col_key c) (col_sql c) (col_ty c) (col_primaryKey c) true
    (col_unique c) (col_default c) (col_onUpdateNow c) (col_references c).

Definition unique (c : column) : column :=
  mkColumn (col_key c) (col_sql c) (col_ty c) (col_primaryKey c)
    (col_notNull c) true (col_default c) (col_onUpdateNow c)
    (col_references c).

Definition with_default (d : default_decl) (c : column) : column :=
  mkColumn (col_key c) (col_sql c) (col_ty c) (col_primaryKey c)
    (col_notNull c) (col_unique c) d (col_onUpdateNow c) (col_references c).

Definition default (v : value) : column -> column := with_default (Default v).
Definition defaultNow : column -> column := with_default DefaultNow.
Definition generatedAlwaysAsIdentity : column -> column :=
  with_default GeneratedAlwaysAsIdentity.

Definition onUpdateNow (c : column) : column :=
  mkColumn (col_key c) (col_sql c) (col_ty c) (col_primaryKey c)
    (col_notNull c) (col_unique c) (col_default c) true (col_references c).

(** [.references(() => t.c)] and [.references(() => t.c, { onDelete: a })]. *)
Definition references_with (t : table) (c : string) (a : fk_action)
    (col : column) : column :=
  mkColumn (col_key col) (col_sql col) (col_ty col) (col_primaryKey col)
    (col_notNull col) (col_unique col) (col_default col)
    (col_onUpdateNow col) (Some (mkReference t c a)).

Definition references (t : table) (c : string) : column -> column :=
  references_with t c no_action.

(** [index(name).on(cols)] and [uniqueIndex(name).on(cols)]. *)
Record index_decl : Type := mkIndex {
  idx_name : string;
  idx_unique : bool;
  idx_on : list string
}.

Definition index (name : string) (on : list string) : index_decl :=
  mkIndex name false on.

Definition uniqueIndex (name : string) (on : list string) : index_decl :=
  mkIndex name true on.

Record table_decl : Type := pgTable {
  tbl_name : string;
  tbl_columns : list column;
  tbl_indexes : list index_decl
}.

(* ================================================================== *)
(** * src/db/schema.ts *)
(* ================================================================== *)

(** Each [export const t = pgTable("t", { ... })] of the source is the
    declaration [t_table] below; [decl] maps the table to it.  The
    [relations(...)] exports of the source describe how drizzle's relational
    queries join the tables; they put no constraint on the store and have
    no counterpart here. *)
Module Schema.

(** [const timestamps = { createdAt: ..., updatedAt: ... }], spread into
    every table. *)
Definition timestamps : list column :=
  [ mk timestamp "createdAt" "created_at" |> defaultNow |> notNull;
    mk timestamp "updatedAt" "updated_at"
      |> defaultNow |> onUpdateNow |> notNull ].

Definition roleEnum : string -> string -> column :=
  mk (pgEnum "role" ["student"; "teacher"; "admin"]).

Definition classStatusEnum : string -> string -> column :=
  mk (pgEnum "class_status" ["active"; "inactive"; "archived"]).

Definition user_table : table_decl :=
  pgTable "user"
    ([ mk text "id" "id" |> primaryKey;
       mk text "name" "name" |> notNull;
       mk text "email" "email" |> notNull;
       mk boolean "emailVerified" "email_verified" |> notNull;
       mk text "image" "image";
       roleEnum "role" "role" |> notNull |> default (VText "student");
       mk text "imageCldPubId" "image_cld_pub_id" ]
     ++ timestamps)
    [].

Definition session_table : table_decl :=
  pgTable "session"
    ([ mk text "id" "id" |> primaryKey;
       mk text "userId" "user_id" |> notNull |> references user "id";
       mk text "token" "token" |> notNull;
       mk timestamp "expiresAt" "expires_at" |> notNull;
       mk text "ipAddress" "ip_address";
       mk text "userAgent" "user_agent" ]
     ++ timestamps)
    [ index "session_user_id_idx" ["userId"];
      uniqueIndex "session_token_unique" ["token"] ].

Definition account_table : table_decl :=
  pgTable "account"
    ([ mk text "id" "id" |> primaryKey;
       mk text "userId" "user_id" |> notNull |> references user "id";
       mk text "accountId" "account_id" |> notNull;
       mk text "providerId" "provider_id" |> notNull;
       mk text "accessToken" "access_token";
       mk text "refreshToken" "refresh_token";
       mk timestamp "accessTokenExpiresAt" "access_token_expires_at";
       mk timestamp "refreshTokenExpiresAt" "refresh_token_expires_at";
       mk text "scope" "scope";
       mk text "idToken" "id_token";
       mk text "password" "password" ]
     ++ timestamps)
    [ index "account_user_id_idx" ["userId"];
      uniqueIndex "account_provider_account_unique"
        ["providerId"; "accountId"] ].

Definition verification_table : table_decl :=
  pgTable "verification"
    ([ mk text "id" "id" |> primaryKey;
       mk text "identifier" "identifier" |> notNull;
       mk text "value" "value" |> notNull;
       mk timestamp "expiresAt" "expires_at" |> notNull ]
     ++ timestamps)
    [ index "verification_identifier_idx" ["identifier"] ].

Definition departments_table : table_decl :=
  pgTable "departments"
    ([ mk integer "id" "id" |> primaryKey |> generatedAlwaysAsIdentity;
       mk (varchar 50) "code" "code" |> notNull |> unique;
       mk (varchar 255) "name" "name" |> notNull;
       mk text "description" "description" ]
     ++ timestamps)
    [].

Definition subjects_table : table_decl :=
  pgTable "subjects"
    ([ mk integer "id" "id" |> primaryKey |> generatedAlwaysAsIdentity;
       mk integer "departmentId" "department_id"
         |> notNull |> references_with departments "id" restrict;
       mk (varchar 255) "name" "name" |> notNull;
       mk (varchar 50) "code" "code" |> notNull |> unique;
       mk text "description" "description" ]
     ++ timestamps)
    [].

Definition classes_table : table_decl :=
  pgTable "classes"
    ([ mk integer "id" "id" |> primaryKey |> generatedAlwaysAsIdentity;
       mk integer "subjectId" "subject_id"
         |> notNull |> references_with subjects "id" cascade;
       mk text "teacherId" "teacher_id"
         |> notNull |> references_with user "id" restrict;
       mk (varchar 50) "inviteCode" "invite_code" |> notNull |> unique;
       mk (varchar 255) "name" "name" |> notNull;
       mk text "bannerCldPubId" "banner_cld_pub_id";
       mk text "bannerUrl" "banner_url";
       mk integer "capacity" "capacity" |> notNull |> default (VInt 50);
       mk text "description" "description";
       classStatusEnum "status" "status"
         |> notNull |> default (VText "active");
       mk jsonb "schedules" "schedules" |> notNull ]
     ++ timestamps)
    [ index "classes_subject_id_idx" ["subjectId"];
      index "classes_teacher_id_idx" ["teacherId"] ].

Definition enrollments_table : table_decl :=
  pgTable "enrollments"
    ([ mk integer "id" "id" |> primaryKey |> generatedAlwaysAsIdentity;
       mk text "studentId" "student_id"
         |> notNull |> references_with user "id" cascade;
       mk integer "classId" "class_id"
         |> notNull |> references_with classes "id" cascade ]
     ++ timestamps)
    [ index "enrollments_student_id_idx" ["studentId"];
      index "enrollments_class_id_idx" ["classId"];
      index "enrollments_student_class_unique" ["studentId"; "classId"] ].

Definition decl (t : table) : table_decl :=
  match t with
  | user => user_table
  | session => session_table
  | account => account_table
  | verification => verification_table
  | departments => departments_table
  | subjects => subjects_table
  | classes => classes_table
  | enrollments => enrollments_table
  end.

End Schema.

(* ================================================================== *)
(** * The store: what PostgreSQL does with these declarations *)
(* ================================================================== *)

(** The statements the application sends through drizzle are single INSERT
    and DELETE statements.  PostgreSQL runs each as one atomic step: either
    every effect of the statement (the cascaded ones included) is applied,
    or an error is raised and no row changes.  [insert] and [delete] are that
    step, as a function from the store before to the store after and the
    outcome.

    INSERT checks, in this order: the types of the values, NOT NULL, the
    unique indexes (primary key first), the foreign keys.  DELETE checks
    RESTRICT keys as rows are removed, follows CASCADE keys, and checks
    NO ACTION keys when the statement ends. *)
Module Engine.

Inductive error : Type :=
| InvalidValue (t : table) (col : string)
    (* the value is not of the column's type: a varchar that is too long,
       an integer outside 32 bits, an unknown enum label, a wrong kind *)
| NotNullViolation (t : table) (col : string)
| UniqueViolation (constraint : string)
| ForeignKeyViolation (child : table) (col : string)
    (* the foreign key [col] of [child]: on insert the referenced row is
       missing, on delete the row is still referenced *)
| CascadeTooDeep.

Inductive result (A : Type) : Type :=
| Ok (a : A)
| Err (e : error).
Arguments Ok {A} a.
Arguments Err {A} e.

(** The rows of each table and the next value of each identity sequence. *)
Record store : Type := mkStore {
  rows : table -> list row;
  seq : table -> Z
}.

Definition empty : store := mkStore (fun _ => []) (fun _ => 1).

Definition upd {A : Type} (f : table -> A) (t : table) (a : A)
    : table -> A :=
  fun t' => if table_eqb t t' then a else f t'.

Fixpoint find_map {A B : Type} (f : A -> option B) (l : list A)
    : option B :=
  match l with
  | [] => None
  | a :: l' => match f a with
               | Some b => Some b
               | None => find_map f l'
               end
  end.

(** ** Column types *)

Definition int4 (z : Z) : bool :=
  (-2147483648 <=? z) && (z <=? 2147483647).

Fixpoint all_spaces (s : string) : bool :=
  match s with
  | EmptyString => true
  | String c s' => Ascii.eqb c " "%char && all_spaces s'
  end.

(** PostgreSQL measures varchar(n) in characters, not in bytes.  A string is
    held as its UTF-8 bytes: a character is one byte that is not a
    continuation byte (10xxxxxx) followed by its continuation bytes. *)
Definition continuation (c : ascii) : bool :=
  let n := nat_of_ascii c in
  ((128 <=? n) && (n <? 192))%nat.

Fixpoint char_length (s : string) : nat :=
  match s with
  | EmptyString => O
  | String c s' =>
      if continuation c then char_length s' else S (char_length s')
  end.

(** The first [n] characters of [s], and what follows them. *)
Fixpoint take_chars (n : nat) (s : string) {struct s} : string :=
  match s with
  | EmptyString => EmptyString
  | String c s' =>
      if continuation c then String c (take_chars n s')
      else match n with
           | O => EmptyString
           | S n' => String c (take_chars n' s')
           end
  end.

Fixpoint drop_chars (n : nat) (s : string) {struct s} : string :=
  match s with
  | EmptyString => EmptyString
  | String c s' =>
      if continuation c then drop_chars n s'
      else match n with
           | O => s
           | S n' => drop_chars n' s'
           end
  end.

(** Storing into varchar(n): a longer string is an error unless the excess
    characters are all spaces, in which case it is cut to n characters. *)
Definition coerce (ty : col_type) (v : value) : value :=
  match ty, v with
  | varchar n, VText s =>
      if (char_length s <=? n)%nat then v
      else if all_spaces (drop_chars n s)
           then VText (take_chars n s)
           else v
  | _, _ => v
  end.

Definition has_type (ty : col_type) (v : value) : bool :=
  match ty, v with
  | _, VNull => true
  | text, VText _ => true
  | varchar n, VText s => (char_length s <=? n)%nat
  | integer, VInt z => int4 z
  | boolean, VBool _ => true
  | timestamp, VTime _ => true
  | jsonb, VJson _ => true
  | pgEnum _ labels, VText s => existsb (String.eqb s) labels
  | _, _ => false
  end.

Definition is_null (v : value) : bool :=
  match v with
  | VNull => true
  | _ => false
  end.

(** ** INSERT *)

Definition is_identity (c : column) : bool :=
  match col_default c with
  | GeneratedAlwaysAsIdentity => true
  | _ => false
  end.

(** The value stored in column [c] for the values [vals] handed to
    [db.insert(t).values(vals)]: drizzle leaves identity columns out of the
    statement, sends DEFAULT for a property that is undefined, and sends
    every other property as it is (null included). *)
Definition cell (c : column) (vals : row) (id now : Z) : value :=
  coerce (col_ty c)
    match col_default c with
    | GeneratedAlwaysAsIdentity => VInt id
    | d =>
        match lookup (col_key c) vals with
        | Some v => v
        | None =>
            match d with
            | Default v => v
            | DefaultNow => VTime now
            | _ => VNull
            end
        end
    end.

Definition build_row (t : table) (vals : row) (id now : Z) : row :=
  map (fun c => (col_key c, cell c vals id now))
      (tbl_columns (Schema.decl t)).

Definition type_error (t : table) (r : row) : option error :=
  find_map (fun c => if has_type (col_ty c) (get (col_key c) r) then None
                     else Some (InvalidValue t (col_key c)))
           (tbl_columns (Schema.decl t)).

Definition not_null_error (t : table) (r : row) : option error :=
  find_map (fun c => if (col_notNull c || col_primaryKey c)
                          && is_null (get (col_key c) r)
                     then Some (NotNullViolation t (col_key c))
                     else None)
           (tbl_columns (Schema.decl t)).

(** The unique indexes of a table, with the names PostgreSQL and drizzle
    give them: the primary key, the columns marked [.unique()], and the
    indexes built with [uniqueIndex].  An index built with [index] is a
    plain lookup index and constrains nothing. *)
Definition unique_constraints (d : table_decl)
    : list (string * list string) :=
  (map (fun c => ((tbl_name d ++ "_pkey")%string, [col_key c]))
       (filter col_primaryKey (tbl_columns d))
   ++ map (fun c => ((tbl_name d ++ "_" ++ col_sql c ++ "_unique")%string,
                     [col_key c]))
          (filter col_unique (tbl_columns d))
   ++ map (fun i => (idx_name i, idx_on i))
          (filter idx_unique (tbl_indexes d)))%list.

(** Two rows collide on an index when they are equal on each of its
    columns; a NULL collides with nothing. *)
Definition same_key (on : list string) (a b : row) : bool :=
  forallb (fun k => key_eqb (get k a) (get k b)) on.

Definition unique_error (st : table -> list row) (t : table) (r : row)
    : option error :=
  find_map (fun u => if existsb (same_key (snd u) r) (st t)
                     then Some (UniqueViolation (fst u))
                     else None)
           (unique_constraints (Schema.decl t)).

Definition fk_error (st : table -> list row) (t : table) (r : row)
    : option error :=
  find_map (fun c =>
              match col_references c with
              | None => None
              | Some ref =>
                  let v := get (col_key c) r in
                  if is_null v
                     || existsb (fun p => key_eqb v (get (ref_column ref) p))
                                (st (ref_table ref))
                  then None
                  else Some (ForeignKeyViolation t (col_key c))
              end)
           (tbl_columns (Schema.decl t)).

Definition has_identity (t : table) : bool :=
  existsb is_identity (tbl_columns (Schema.decl t)).

(** A value drawn from an identity sequence is never given back, also when
    the statement fails. *)
Definition draw (s : store) (t : table) : store :=
  if has_identity t then mkStore (rows s) (upd (seq s) t (seq s t + 1))
  else s.

Definition insert_error (s : store) (t : table) (r : row) : option error :=
  match type_error t r with
  | Some e => Some e
  | None =>
      match not_null_error t r with
      | Some e => Some e
      | None =>
          match unique_error (rows s) t r with
          | Some e => Some e
          | None => fk_error (rows s) t r
          end
      end
  end.

(** [db.insert(t).values(vals).returning()] at time [now]. *)
Definition insert (s : store) (t : table) (now : Z) (vals : row)
    : store * result row :=
  let r := build_row t vals (seq s t) now in
  let s0 := draw s t in
  match insert_error s t r with
  | Some e => (s0, Err e)
  | None => (mkStore (upd (rows s0) t (rows s0 t ++ [r])%list) (seq s0), Ok r)
  end.

(** ** DELETE *)

Record fk : Type := mkFk {
  fk_child : table;
  fk_col : string;
  fk_ref : reference
}.

Definition fks_of (t : table) : list fk :=
  flat_map (fun c => match col_references c with
                     | Some ref => [mkFk t (col_key c) ref]
                     | None => []
                     end)
           (tbl_columns (Schema.decl t)).

(** Every foreign key of the schema, in declaration order. *)
Definition foreign_keys : list fk := flat_map fks_of all_tables.

(** The foreign keys that point at table [t]. *)
Definition referencing (t : table) : list fk :=
  filter (fun k => table_eqb (ref_table (fk_ref k)) t) foreign_keys.

(** Row [c] of the child table references one of the rows [parents]. *)
Definition refers (k : fk) (parents : list row) (c : row) : bool :=
  existsb (fun p => key_eqb (get (fk_col k) c)
                            (get (ref_column (fk_ref k)) p))
          parents.

Definition is_restrict (k : fk) : bool :=
  match onDelete (fk_ref k) with
  | restrict => true
  | _ => false
  end.

(** Deleting the rows of [t] selected by [doomed]:
    - a RESTRICT key pointing at one of them from a remaining row raises an
      error at once;
    - the rows are removed;
    - for each CASCADE key pointing at [t], the rows of the child table that
      referenced a removed row are deleted in the same way.
    NO ACTION keys are checked by [delete] when the statement ends.  The
    chain of cascades is followed to a depth of [fuel] tables.

    A statement that several keys block fails with the violation of one of
    them.  Which one the database names follows the order in which its
    constraints were created, which the schema does not fix; the model
    names a RESTRICT key before a NO ACTION key, each in declaration
    order.  The properties of a rejected delete therefore name a key
    only where no other key can block the statement, and otherwise the
    keys among which the named one lies. *)
Fixpoint delete_rows (fuel : nat) (st : table -> list row) (t : table)
    (doomed : row -> bool) : result (table -> list row) :=
  match fuel with
  | O => Err CascadeTooDeep
  | S fuel' =>
      let victims := filter doomed (st t) in
      match find (fun k => is_restrict k
                           && existsb (refers k victims) (st (fk_child k)))
                 (referencing t) with
      | Some k => Err (ForeignKeyViolation (fk_child k) (fk_col k))
      | None =>
          fold_left
            (fun acc k =>
               match acc with
               | Err e => Err e
               | Ok st' =>
                   match onDelete (fk_ref k) with
                   | cascade =>
                       delete_rows fuel' st' (fk_child k) (refers k victims)
                   | _ => Ok st'
                   end
               end)
            (referencing t)
            (Ok (upd st t (filter (fun r => negb (doomed r)) (st t))))
      end
  end.

(** A NO ACTION key is violated at the end of the statement when a row that
    had a parent before the statement has none after it. *)
Definition orphaned (old new : table -> list row) (k : fk) : bool :=
  existsb (fun c => refers k (old (ref_table (fk_ref k))) c
                    && negb (refers k (new (ref_table (fk_ref k))) c))
          (new (fk_child k)).

Definition no_action_error (old new : table -> list row) : option error :=
  find_map (fun k => match onDelete (fk_ref k) with
                     | no_action =>
                         if orphaned old new k
                         then Some (ForeignKeyViolation (fk_child k)
                                                        (fk_col k))
                         else None
                     | _ => None
                     end)
           foreign_keys.

(** No chain of foreign keys is longer than the number of tables. *)
Definition depth : nat := List.length all_tables.

(** [db.delete(t).where(doomed).returning()]: the store after the statement
    and the deleted rows of [t], or the error with the store as it was. *)
Definition delete (s : store) (t : table) (doomed : row -> bool)
    : store * result (list row) :=
  match delete_rows depth (rows s) t doomed with
  | Err e => (s, Err e)
  | Ok st' =>
      match no_action_error (rows s) st' with
      | Some e => (s, Err e)
      | None => (mkStore st' (seq s), Ok (filter doomed (rows s t)))
      end
  end.

(** The condition [eq(t.col, v)] of a WHERE clause. *)
Definition where_eq (col : string) (v : value) : row -> bool :=
  fun r => key_eqb (get col r) v.

End Engine.

(* ================================================================== *)
(** * The request pipeline (Express 5) *)
(* ================================================================== *)

(** An Express application is an ordered list of layers.  For each request
    Express walks the list: a layer whose path does not match is skipped; a
    layer that matches runs its handler, which either answers the request
    (the walk stops), calls [next()] (the walk goes on with the following
    layer), or fails with [next(err)] (every remaining layer is skipped,
    none of them being an error handler, and Express's final handler
    answers with the error).  A route whose path matches but whose
    parameter does not decode fails the request in the same way, before its
    handler runs.  When the list is exhausted the final handler answers
    404. *)
Module Express.

Inductive method : Type :=
| GET | POST | PUT | DELETE | PATCH | HEAD | OPTIONS.

Inductive body : Type :=
| NoBody
| JsonBody (well_formed : bool)    (* Content-Type: application/json *)
| OtherBody.

Record request : Type := mkRequest {
  req_method : method;
  req_path : string;               (* the pathname of the URL *)
  req_origin : option string;      (* the Origin header *)
  req_body : body
}.

Inductive signal : Type :=
| next
| next_err
| ended.

(** The handlers the two entry files register. *)
Inductive handler : Type :=
| cors
| toNodeHandler_auth
| express_json
| securityMiddleware
| subjectsRouter.

(** Path patterns: a literal path, or a literal prefix followed by a
    wildcard parameter such as [*splat], which stands for one character or
    more. *)
Inductive pattern : Type :=
| literal (p : string)
| wildcard (prefix : string).

Inductive layer : Type :=
| use (h : handler)                         (* app.use(h) *)
| use_at (mount : string) (h : handler)     (* app.use(mount, h) *)
| all (p : pattern) (h : handler).          (* app.all(p, h) *)

Definition handler_of (l : layer) : handler :=
  match l with
  | use h | use_at _ h | all _ h => h
  end.

(** Routing is case-insensitive unless the application enables
    "case sensitive routing", which neither entry file does. *)
Definition lower (c : ascii) : ascii :=
  let n := nat_of_ascii c in
  if ((65 <=? n) && (n <=? 90))%nat then ascii_of_nat (n + 32) else c.

Fixpoint to_lower (s : string) : string :=
  match s with
  | EmptyString => EmptyString
  | String c s' => String (lower c) (to_lower s')
  end.

Fixpoint prefixb (p s : string) : bool :=
  match p, s with
  | EmptyString, _ => true
  | String _ _, EmptyString => false
  | String a p', String b s' => Ascii.eqb a b && prefixb p' s'
  end.

Definition starts_with (p s : string) : bool :=
  prefixb (to_lower p) (to_lower s).

(** [app.use(mount, h)] matches the mount path itself and everything below
    it. *)
Definition under (mount path : string) : bool :=
  String.eqb (to_lower mount) (to_lower path)
  || starts_with (mount ++ "/") path.

Definition matches_pattern (p : pattern) (path : string) : bool :=
  match p with
  | literal q =>
      String.eqb (to_lower q) (to_lower path)
      || String.eqb (to_lower (q ++ "/")) (to_lower path)
  | wildcard prefix =>
      starts_with prefix path
      && (String.length prefix <? String.length path)%nat
  end.

Definition matches (l : layer) (req : request) : bool :=
  match l with
  | use _ => true
  | use_at mount _ => under mount (req_path req)
  | all p _ => matches_pattern p (req_path req)
  end.

(** ** Route parameters

    While it matches a route, Express decodes the text that each parameter
    stands for with [decodeURIComponent].  A text that does not decode (a
    percent sign that is not followed by two hexadecimal digits, or escaped
    bytes that are not the UTF-8 encoding of a character) fails the request
    with status 400: the handler of the route does not run and every
    remaining layer is skipped. *)
Definition hex_digit (c : ascii) : option nat :=
  let n := nat_of_ascii c in
  if ((48 <=? n) && (n <=? 57))%nat then Some (n - 48)%nat
  else if ((65 <=? n) && (n <=? 70))%nat then Some (n - 55)%nat
  else if ((97 <=? n) && (n <=? 102))%nat then Some (n - 87)%nat
  else None.

(** The bytes that must follow the first byte [b] of the UTF-8 encoding of
    a character, each with the range it lies in; [None] when no encoding
    starts with [b].  Overlong forms, surrogates and values above 10FFFF
    are no encodings. *)
Definition utf8_tail (b : nat) : option (list (nat * nat)) :=
  if (b <? 128)%nat then Some []
  else if (b <? 194)%nat then None
  else if (b <? 224)%nat then Some [(128, 191)]%nat
  else if (b =? 224)%nat then Some [(160, 191); (128, 191)]%nat
  else if (b =? 237)%nat then Some [(128, 159); (128, 191)]%nat
  else if (b <? 240)%nat then Some [(128, 191); (128, 191)]%nat
  else if (b =? 240)%nat then Some [(144, 191); (128, 191); (128, 191)]%nat
  else if (b <? 244)%nat then Some [(128, 191); (128, 191); (128, 191)]%nat
  else if (b =? 244)%nat then Some [(128, 143); (128, 191); (128, 191)]%nat
  else None.

(** [decodes_from expect s]: the text [s] decodes, [expect] being the
    ranges of the escaped bytes that must come first to complete the
    character under way. *)
Fixpoint decodes_from (expect : list (nat * nat)) (s : string) : bool :=
  match s with
  | EmptyString =>
      match expect with
      | [] => true
      | _ :: _ => false
      end
  | String c rest =>
      if Ascii.eqb c "%"%char then
        match rest with
        | String h (String l rest') =>
            match hex_digit h, hex_digit l with
            | Some a, Some b =>
                let byte := (16 * a + b)%nat in
                match expect with
                | [] =>
                    match utf8_tail byte with
                    | Some tail => decodes_from tail rest'
                    | None => false
                    end
                | (lo, hi) :: tail =>
                    (lo <=? byte)%nat && (byte <=? hi)%nat
                    && decodes_from tail rest'
                end
            | _, _ => false
            end
        | _ => false
        end
      else
        match expect with
        | [] => decodes_from [] rest
        | _ :: _ => false
        end
  end.

Definition decodes (s : string) : bool := decodes_from [] s.

(** The text that the wildcard of [wildcard prefix] stands for in [path]. *)
Definition splat (prefix path : string) : string :=
  substring (String.length prefix)
            (String.length path - String.length prefix) path.

(** Of the layers of the two entry files only a route with a wildcard has
    a parameter to decode; a mount path has none. *)
Definition decode_fails (l : layer) (req : request) : bool :=
  match l with
  | all (wildcard prefix) _ => negb (decodes (splat prefix (req_path req)))
  | _ => false
  end.

Inductive outcome : Type :=
| responded (by_ : handler)
| failed (at_ : handler)
| bad_request                      (* a route parameter did not decode *)
| not_found.

Section Dispatch.

(** What a handler does with a request. *)
Variable behave : handler -> request -> signal.

(** The handlers a request visits, in order, and how the request ends. *)
Fixpoint dispatch (layers : list layer) (req : request)
    : list handler * outcome :=
  match layers with
  | [] => ([], not_found)
  | l :: rest =>
      if matches l req then
        if decode_fails l req then ([], bad_request)
        else
          match behave (handler_of l) req with
          | next =>
              let (visited, o) := dispatch rest req in
              (handler_of l :: visited, o)
          | next_err => ([handler_of l], failed (handler_of l))
          | ended => ([handler_of l], responded (handler_of l))
          end
      else dispatch rest req
  end.

End Dispatch.

(** ** The middleware of the two entry files *)

(** [cors({ origin: process.env.FRONTEND_URL, methods: [...], credentials:
    true })].  With no origin configured the middleware does nothing and
    calls [next()].  With one, it sets the CORS headers, answers an OPTIONS
    (preflight) request itself with status 204, and calls [next()] for every
    other method; it never rejects a request. *)
Definition truthy (o : option string) : bool :=
  match o with
  | Some (String _ _) => true
  | _ => false
  end.

Definition cors_signal (FRONTEND_URL : option string) (req : request)
    : signal :=
  if truthy FRONTEND_URL then
    match req_method req with
    | OPTIONS => ended
    | _ => next
    end
  else next.

(** [express.json()]: a body that is declared as JSON and that the parser
    refuses ([JsonBody false]: malformed, too large, unsupported charset)
    fails the request with [next(err)]; anything else is passed on. *)
Definition json_signal (req : request) : signal :=
  match req_body req with
  | JsonBody false => next_err
  | _ => next
  end.

(** The parts of the pipeline whose source is outside these files:
    [./middleware/security], [./routes/subjects] and the handler that
    [toNodeHandler(auth)] builds from [./lib/auth].  The latter is a
    [(req, res)] function: it has no [next] to call, so it either answers
    ([true]) or its promise rejects ([false]), which Express turns into
    [next(err)]. *)
Record externals : Type := mkExternals {
  FRONTEND_URL : option string;
  security : request -> signal;
  subjects_router : request -> signal;
  auth_answers : request -> bool
}.

Definition behave (e : externals) (h : handler) (req : request) : signal :=
  match h with
  | cors => cors_signal (FRONTEND_URL e) req
  | toNodeHandler_auth => if auth_answers e req then ended else next_err
  | express_json => json_signal req
  | securityMiddleware => security e req
  | subjectsRouter => subjects_router e req
  end.

End Express.

(** [src/index.ts] *)
Module Index.
Import Express.

Definition app : list layer :=
  [ use cors;
    use express_json;
    use securityMiddleware;
    use_at "/api/subjects" subjectsRouter ].

Definition handle (e : externals) : request -> list handler * outcome :=
  dispatch (behave e) app.

End Index.

(** The second entry file (src/unnamed/part_000): [src/index.ts] with the
    handler of the authentication provider mounted between the CORS layer
    and the JSON parser,
    [app.all("/api/auth/*splat", toNodeHandler(auth))]. *)
Module IndexAuth.
Import Express.

Definition app : list layer :=
  [ use cors;
    all (wildcard "/api/auth/") toNodeHandler_auth;
    use express_json;
    use securityMiddleware;
    use_at "/api/subjects" subjectsRouter ].

Definition handle (e : externals) : request -> list handler * outcome :=
  dispatch (behave e) app.

End IndexAuth.

(* ================================================================== *)
(** * Vocabulary of the properties *)
(* ================================================================== *)

Module Props.
Import Engine.

(** The seven foreign keys of the schema, by name. *)
Definition fk_session_user : fk :=
  mkFk session "userId" (mkReference user "id" no_action).
Definition fk_account_user : fk :=
  mkFk account "userId" (mkReference user "id" no_action).
Definition fk_subjects_department : fk :=
  mkFk subjects "departmentId" (mkReference departments "id" restrict).
Definition fk_classes_subject : fk :=
  mkFk classes "subjectId" (mkReference subjects "id" cascade).
Definition fk_classes_teacher : fk :=
  mkFk classes "teacherId" (mkReference user "id" restrict).
Definition fk_enrollments_student : fk :=
  mkFk enrollments "studentId" (mkReference user "id" cascade).
Definition fk_enrollments_class : fk :=
  mkFk enrollments "classId" (mkReference classes "id" cascade).

(** The row passes the column checks of its table: every value is of the
    column's type and no NOT NULL column is NULL. *)
Definition well_typed (t : table) (r : row) : Prop :=
  type_error t r = None /\ not_null_error t r = None.



(** The stores that the statements of the application can produce. *)
Inductive reachable : store -> Prop :=
| reach_empty : reachable empty
| reach_insert s t now vals :
    reachable s -> reachable (fst (insert s t now vals))
| reach_delete s t doomed :
    reachable s -> reachable (fst (delete s t doomed)).

(** Running a list of INSERT statements at time 0. *)
Definition populate (s : store) (stmts : list (table * row)) : store :=
  fold_left (fun s q => fst (insert s (fst q) 0 (snd q))) stmts s.

(** ** A small campus, used as concrete input *)

Definition new_teacher : row :=
  [("id", VText "t1"); ("name", VText "Ada"); ("email", VText "ada@uni.edu");
   ("emailVerified", VBool true); ("role", VText "teacher")].

Definition new_student : row :=
  [("id", VText "s1"); ("name", VText "Bob"); ("email", VText "bob@uni.edu");
   ("emailVerified", VBool false)].

Definition new_department : row :=
  [("code", VText "CS"); ("name", VText "Computer Science")].

Definition new_subject : row :=
  [("departmentId", VInt 1); ("code", VText "CS101");
   ("name", VText "Programming")].

Definition new_class : row :=
  [("subjectId", VInt 1); ("teacherId", VText "t1");
   ("inviteCode", VText "abc123"); ("name", VText "Programming A");
   ("schedules", VJson "[]")].

Definition new_enrollment : row :=
  [("studentId", VText "s1"); ("classId", VInt 1)].

Definition new_session : row :=
  [("id", VText "x1"); ("userId", VText "s1"); ("token", VText "tok");
   ("expiresAt", VTime 3600)].

(** A second user with Ada's email, under another id. *)
Definition ada_again : row :=
  [("id", VText "t2"); ("name", VText "Ada L.");
   ("email", VText "ada@uni.edu"); ("emailVerified", VBool false)].

(** The class again, with no seat at all. *)
Definition new_class_no_seats : row := ("capacity", VInt 0) :: new_class.

(** Users, one department and one subject; no class yet. *)
Definition catalog : store :=
  populate empty
    [(user, new_teacher); (user, new_student);
     (departments, new_department); (subjects, new_subject)].

(** The catalog with one class, taught by t1. *)
Definition campus : store := populate catalog [(classes, new_class)].

(** The campus with s1 enrolled in the class. *)
Definition enrolled : store := populate campus [(enrollments, new_enrollment)].

(** The campus with s1 logged in. *)
Definition logged_in : store := populate campus [(session, new_session)].

Definition teacher_row : row :=
  Eval vm_compute in build_row user new_teacher 1 0.
Definition student_row : row :=
  Eval vm_compute in build_row user new_student 1 0.
Definition department_row : row :=
  Eval vm_compute in build_row departments new_department 1 0.
Definition subject_row : row :=
  Eval vm_compute in build_row subjects new_subject 1 0.
Definition class_row : row :=
  Eval vm_compute in build_row classes new_class 1 0.
Definition session_row : row :=
  Eval vm_compute in build_row session new_session 1 0.

(** ** Concrete requests *)

Definition dev : Express.externals :=
  Express.mkExternals (Some "http://localhost:5173")
    (fun _ => Express.next) (fun _ => Express.ended) (fun _ => true).

Definition preflight : Express.request :=
  Express.mkRequest Express.OPTIONS "/api/auth/sign-in/email"
    (Some "http://localhost:5173") Express.NoBody.

Definition sign_in : Express.request :=
  Express.mkRequest Express.POST "/api/auth/sign-in/email"
    (Some "http://localhost:5173") (Express.JsonBody true).

Definition list_subjects : Express.request :=
  Express.mkRequest Express.GET "/api/subjects"
    (Some "http://localhost:5173") Express.NoBody.

(** The four stages of the catalog API, in registration order. *)
Definition pipeline : list Express.handler :=
  [Express.cors; Express.express_json; Express.securityMiddleware;
   Express.subjectsRouter].

End Props.

(* ================================================================== *)
(** * Vocabulary of the store invariants *)
(* ================================================================== *)

Module Invariants.
Import Engine Props.

(** No row holds a dangling reference: every foreign key of every row
    names an existing row of the referenced table. *)
Definition ref_integrity (st : table -> list row) : Prop :=
  forall k c, In k foreign_keys -> In c (st (fk_child k)) ->
              refers k (st (ref_table (fk_ref k))) c = true.

(** No two rows of the list collide on the columns [on]. *)
Fixpoint distinct_on (on : list string) (l : list row) : Prop :=
  match l with
  | [] => True
  | a :: l' => (forall b, In b l' -> same_key on a b = false)
               /\ distinct_on on l'
  end.

(** Every unique index of every table holds. *)
Definition uniques_hold (st : table -> list row) : Prop :=
  forall t u, In u (unique_constraints (Schema.decl t)) ->
              distinct_on (snd u) (st t).

(** Every row passes the column checks of its table. *)
Definition rows_well_typed (st : table -> list row) : Prop :=
  forall t r, In r (st t) -> well_typed t r.

(** The values handed to [db.insert(t).values(vals)] are of the type
    [typeof t.$inferInsert] ([NewUser], [NewClass], ...): no value is given
    for a column generated always as identity, and each value given is
    null or of the data type of its column.  The properties of INSERT
    below are stated for such values, the ones a caller can pass. *)
Definition kind_ok (ty : col_type) (v : value) : bool :=
  match ty, v with
  | _, VNull => true
  | text, VText _ | varchar _, VText _ | pgEnum _ _, VText _ => true
  | integer, VInt _ => true
  | boolean, VBool _ => true
  | timestamp, VTime _ => true
  | jsonb, VJson _ => true
  | _, _ => false
  end.

Definition insertable (t : table) (vals : row) : bool :=
  forallb (fun c => match lookup (col_key c) vals with
                    | None => true
                    | Some v => negb (is_identity c) && kind_ok (col_ty c) v
                    end)
          (tbl_columns (Schema.decl t)).

(** [steps s s']: some INSERT and DELETE statements lead from [s] to [s']. *)
Inductive steps : store -> store -> Prop :=
| steps_refl s : steps s s
| steps_insert s s' t now vals :
    steps s s' -> steps s (fst (insert s' t now vals))
| steps_delete s s' t doomed :
    steps s s' -> steps s (fst (delete s' t doomed)).

(** Every row after the step was there before it. *)
Definition shrinks (st st' : table -> list row) : Prop :=
  forall t x, In x (st' t) -> In x (st t).

(** No remaining row references, through a RESTRICT or CASCADE key, a row
    that the step removed. *)
Definition closed (st st' : table -> list row) : Prop :=
  forall k c p,
    In k foreign_keys -> onDelete (fk_ref k) <> no_action ->
    In c (st' (fk_child k)) -> In p (st (ref_table (fk_ref k))) ->
    key_eqb (get (fk_col k) c) (get (ref_column (fk_ref k)) p) = true ->
    In p (st' (ref_table (fk_ref k))).

(** ** More rows for the campus *)

Definition new_account : row :=
  [("id", VText "a1"); ("userId", VText "s1"); ("accountId", VText "bob");
   ("providerId", VText "github")].

(** Another account row for the same provider identity. *)
Definition same_account : row :=
  [("id", VText "a2"); ("userId", VText "t1"); ("accountId", VText "bob");
   ("providerId", VText "github")].

(** A subject of a department that does not exist. *)
Definition stray_subject : row :=
  [("departmentId", VInt 9); ("code", VText "CS102");
   ("name", VText "Logic")].

Definition new_verification : row :=
  [("id", VText "v1"); ("identifier", VText "bob@uni.edu");
   ("value", VText "123456"); ("expiresAt", VTime 600)].

(** The enrolled campus with s1 logged in through one account. *)
Definition busy : store :=
  populate enrolled
    [(session, new_session); (account, new_account);
     (verification, new_verification)].

Definition enrollment_row : row :=
  Eval vm_compute in build_row enrollments new_enrollment 1 0.
Definition account_row : row :=
  Eval vm_compute in build_row account new_account 1 0.

(** ** More requests *)

Definition health_check : Express.request :=
  Express.mkRequest Express.GET "/health" None Express.NoBody.

Definition broken_post : Express.request :=
  Express.mkRequest Express.POST "/api/subjects"
    (Some "http://localhost:5173") (Express.JsonBody false).

Definition broken_sign_in : Express.request :=
  Express.mkRequest Express.POST "/api/auth/sign-in/email"
    (Some "http://localhost:5173") (Express.JsonBody false).

Definition subjects_preflight : Express.request :=
  Express.mkRequest Express.OPTIONS "/api/subjects"
    (Some "http://localhost:5173") Express.NoBody.

End Invariants.

(* ================================================================== *)
(** * Facts about the store *)
(* ================================================================== *)

Module EngineFacts.
Import Engine Props.

(** ** Keys and lists *)

Lemma value_eqb_eq (a b : value) : value_eqb a b = true <-> a = b.
Proof.
  destruct a, b; simpl; split; intro H; try discriminate; try reflexivity;
    try (apply String.eqb_eq in H; congruence);
    try (apply Z.eqb_eq in H; congruence);
    try (apply Bool.eqb_prop in H; congruence);
    inversion H; subst;
    auto using String.eqb_refl, Z.eqb_refl, Bool.eqb_reflx.
Qed.

Lemma key_eqb_true (a b : value) :
  key_eqb a b = true <-> a = b /\ a <> VNull.
Proof.
  unfold key_eqb. split.
  - destruct a; try discriminate; intro H; apply value_eqb_eq in H;
      split; auto; discriminate.
  - intros [-> H]. destruct b; try congruence; now apply value_eqb_eq.
Qed.

Lemma where_eq_true (col : string) (v : value) (r : row) :
  where_eq col v r = true <-> get col r = v /\ v <> VNull.
Proof.
  unfold where_eq. rewrite key_eqb_true.
  split; intros [H1 H2]; split; congruence.
Qed.

Lemma refers_iff (k : fk) (ps : list row) (c : row) :
  refers k ps c = true <->
  exists p, In p ps /\ get (fk_col k) c = get (ref_column (fk_ref k)) p
            /\ get (fk_col k) c <> VNull.
Proof.
  unfold refers. rewrite existsb_exists. split; intros [p [Hp H]]; exists p.
  - apply key_eqb_true in H. tauto.
  - split; [assumption|]. now apply key_eqb_true.
Qed.

Lemma existsb_false {A : Type} (f : A -> bool) (l : list A) :
  (forall x, In x l -> f x = false) -> existsb f l = false.
Proof.
  intro H. induction l as [|a l IH]; simpl; [reflexivity|].
  rewrite H by (left; reflexivity). apply IH. intros x Hx. apply H. now right.
Qed.

Lemma existsb_pointwise {A : Type} (f g : A -> bool) (l : list A) :
  (forall x, f x = g x) -> existsb f l = existsb g l.
Proof.
  intro H. induction l as [|a l IH]; simpl; [reflexivity|]. now rewrite H, IH.
Qed.

Lemma existsb_refers (k : fk) (ps cs : list row) (c p : row) :
  In c cs -> In p ps ->
  get (fk_col k) c = get (ref_column (fk_ref k)) p ->
  get (fk_col k) c <> VNull ->
  existsb (refers k ps) cs = true.
Proof.
  intros Hc Hp He Hn. apply existsb_exists. exists c. split; [assumption|].
  apply refers_iff. exists p. auto.
Qed.

Lemma find_map_pointwise {A B : Type} (f g : A -> option B) (l : list A) :
  (forall a, In a l -> f a = g a) -> find_map f l = find_map g l.
Proof.
  intro H. induction l as [|a l IH]; simpl; [reflexivity|].
  rewrite H by (left; reflexivity).
  destruct (g a); [reflexivity|]. apply IH. intros b Hb. apply H. now right.
Qed.

Lemma find_map_some {A B : Type} (f : A -> option B) (l : list A) (b : B) :
  find_map f l = Some b -> exists a, In a l /\ f a = Some b.
Proof.
  induction l as [|a l IH]; simpl; [discriminate|].
  destruct (f a) eqn:E.
  - intros [= <-]. eauto.
  - intro H. destruct (IH H) as (x & Hx & Hf). eauto.
Qed.

Lemma filter_filter {A : Type} (f g : A -> bool) (l : list A) :
  filter f (filter g l) = filter (fun x => g x && f x) l.
Proof.
  induction l as [|a l IH]; simpl; [reflexivity|].
  destruct (g a); simpl; [destruct (f a)|]; now rewrite IH.
Qed.

Lemma filter_all {A : Type} (l : list A) : filter (fun _ => true) l = l.
Proof. induction l as [|a l IH]; simpl; [reflexivity|]. now rewrite IH. Qed.



Lemma table_eq_dec (a b : table) : {a = b} + {a <> b}.
Proof. decide equality. Qed.

Lemma upd_same {A : Type} (f : table -> A) (t : table) (a : A) :
  upd f t a t = a.
Proof. unfold upd. destruct t; reflexivity. Qed.

Lemma upd_other {A : Type} (f : table -> A) (t t' : table) (a : A) :
  t <> t' -> upd f t a t' = f t'.
Proof. unfold upd. destruct t, t'; cbn; congruence. Qed.

(** ** The foreign keys of the schema *)

Lemma foreign_keys_eq :
  foreign_keys
  = [fk_session_user; fk_account_user; fk_subjects_department;
     fk_classes_subject; fk_classes_teacher; fk_enrollments_student;
     fk_enrollments_class].
Proof. reflexivity. Qed.

Lemma referencing_user :
  referencing user
  = [fk_session_user; fk_account_user; fk_classes_teacher;
     fk_enrollments_student].
Proof. reflexivity. Qed.

Lemma referencing_session : referencing session = [].
Proof. reflexivity. Qed.

Lemma referencing_account : referencing account = [].
Proof. reflexivity. Qed.

Lemma referencing_verification : referencing verification = [].
Proof. reflexivity. Qed.

Lemma referencing_departments :
  referencing departments = [fk_subjects_department].
Proof. reflexivity. Qed.

Lemma referencing_subjects : referencing subjects = [fk_classes_subject].
Proof. reflexivity. Qed.

Lemma referencing_classes : referencing classes = [fk_enrollments_class].
Proof. reflexivity. Qed.

Lemma referencing_enrollments : referencing enrollments = [].
Proof. reflexivity. Qed.

Create Rewrite HintDb schema.
#[export] Hint Rewrite referencing_user referencing_session
  referencing_account referencing_verification referencing_departments
  referencing_subjects referencing_classes referencing_enrollments : schema.

(** One level of [delete_rows], then the keys that point at the table. *)
Ltac step_delete :=
  cbn [delete_rows find fold_left is_restrict onDelete fk_ref fk_child fk_col
       ref_table ref_column andb
       fk_session_user fk_account_user fk_subjects_department
       fk_classes_subject fk_classes_teacher fk_enrollments_student
       fk_enrollments_class].

Ltac run_delete :=
  unfold depth; cbn [List.length all_tables];
  repeat (step_delete; autorewrite with schema).

(** The unique indexes that the schema gives each table. *)
Lemma unique_constraints_eq :
  map (fun t => unique_constraints (Schema.decl t)) all_tables
  = [ [("user_pkey", ["id"])];
      [("session_pkey", ["id"]); ("session_token_unique", ["token"])];
      [("account_pkey", ["id"]);
       ("account_provider_account_unique", ["providerId"; "accountId"])];
      [("verification_pkey", ["id"])];
      [("departments_pkey", ["id"]); ("departments_code_unique", ["code"])];
      [("subjects_pkey", ["id"]); ("subjects_code_unique", ["code"])];
      [("classes_pkey", ["id"]);
       ("classes_invite_code_unique", ["inviteCode"])];
      [("enrollments_pkey", ["id"])] ].
Proof. reflexivity. Qed.

(** ** DELETE terminates and keeps to the rows that exist *)

(** The cascades of this schema never exhaust the depth bound. *)
Lemma delete_rows_total
    (st : table -> list row) (t : table) (doomed : row -> bool) :
  delete_rows depth st t doomed <> Err CascadeTooDeep.
Proof.
  destruct t; run_delete;
    try match goal with
        | |- context [existsb ?f ?l] => destruct (existsb f l)
        end;
    run_delete; discriminate.
Qed.

(** A DELETE that fails fails on a foreign key, and leaves the store as it
    was. *)
Lemma delete_error (s s' : store) (t : table) (doomed : row -> bool)
    (e : error) :
  delete s t doomed = (s', Err e) ->
  s' = s /\ exists child col, e = ForeignKeyViolation child col.
Proof.
  unfold delete. intro H.
  destruct (delete_rows depth (rows s) t doomed) as [st'|e0] eqn:E.
  - destruct (no_action_error (rows s) st') as [e1|] eqn:N; [|discriminate].
    injection H as <- <-. split; [reflexivity|].
    apply find_map_some in N as (k & _ & N).
    destruct (onDelete (fk_ref k)); try discriminate.
    destruct (orphaned _ _ k); [|discriminate].
    injection N as <-. eauto.
  - injection H as <- <-. split; [reflexivity|].
    revert E. destruct t; run_delete;
      try match goal with
          | |- context [existsb ?f ?l] => destruct (existsb f l)
          end;
      run_delete; intro E; try discriminate; injection E as <-; eauto.
Qed.

(** DELETE only removes rows: each table after it is a filtering of the
    table before it. *)
Lemma delete_rows_filter (fuel : nat) :
  forall st t doomed st',
    delete_rows fuel st t doomed = Ok st' ->
    forall t', exists keep, st' t' = filter keep (st t').
Proof.
  induction fuel as [|fuel IH]; intros st t doomed st' H; [discriminate|].
  cbn [delete_rows] in H.
  destruct (find _ (referencing t)); [discriminate|].
  set (victims := filter doomed (st t)) in H.
  assert (Hfold : forall ks acc st1,
            fold_left
              (fun acc k =>
                 match acc with
                 | Err e => Err e
                 | Ok st' =>
                     match onDelete (fk_ref k) with
                     | cascade =>
                         delete_rows fuel st' (fk_child k) (refers k victims)
                     | _ => Ok st'
                     end
                 end) ks acc = Ok st1 ->
            exists st0, acc = Ok st0 /\
                        forall t', exists keep,
                          st1 t' = filter keep (st0 t')).
  { induction ks as [|k ks IHks]; intros acc st1 Hf; cbn [fold_left] in Hf.
    - exists st1. split; [exact Hf|]. intro t'. exists (fun _ => true).
      symmetry. apply filter_all.
    - apply IHks in Hf as (st0 & Hacc & Hsub).
      destruct acc as [st2|e]; [|discriminate].
      exists st2. split; [reflexivity|].
      intros t'. destruct (Hsub t') as [keep Hk].
      destruct (onDelete (fk_ref k)); try (injection Hacc as <-; eauto).
      destruct (IH _ _ _ _ Hacc t') as [keep' Hk'].
      exists (fun x => keep' x && keep x).
      now rewrite Hk, Hk', filter_filter. }
  apply Hfold in H as (st0 & Hacc & Hsub). injection Hacc as <-.
  intros t'. destruct (Hsub t') as [keep Hk].
  destruct (table_eq_dec t t') as [<-|Hne].
  - rewrite upd_same in Hk. rewrite Hk, filter_filter. eauto.
  - rewrite upd_other in Hk by exact Hne. eauto.
Qed.

Lemma delete_rows_subset (fuel : nat) :
  forall st t doomed st',
    delete_rows fuel st t doomed = Ok st' ->
    forall t' x, In x (st' t') -> In x (st t').
Proof.
  intros st t doomed st' H t' x Hx.
  destruct (delete_rows_filter fuel st t doomed st' H t') as [keep E].
  rewrite E in Hx. apply filter_In in Hx. tauto.
Qed.

(** ** Identity values stay below their sequence *)

Lemma rows_draw (s : store) (t : table) : rows (draw s t) = rows s.
Proof. unfold draw. destruct (has_identity t); reflexivity. Qed.

Lemma seq_draw_le (s : store) (t t' : table) :
  seq s t' <= seq (draw s t) t'.
Proof.
  unfold draw. destruct (has_identity t); cbn; [|lia].
  destruct (table_eq_dec t t') as [<-|Hne].
  - rewrite upd_same. lia.
  - rewrite upd_other by exact Hne. lia.
Qed.

Lemma seq_draw_identity (s : store) (t : table) :
  has_identity t = true -> seq (draw s t) t = seq s t + 1.
Proof. intro H. unfold draw. rewrite H. cbn. apply upd_same. Qed.

Lemma built_id (t : table) (vals : row) (id now : Z) :
  has_identity t = true -> get "id" (build_row t vals id now) = VInt id.
Proof. destruct t; try discriminate; intros _; reflexivity. Qed.




Lemma populate_reachable (stmts : list (table * row)) :
  forall s, reachable s -> reachable (populate s stmts).
Proof.
  induction stmts as [|q stmts IH]; intros s Hs; [exact Hs|].
  apply IH. now apply reach_insert.
Qed.

Lemma campus_reachable : reachable campus.
Proof. repeat apply populate_reachable. apply reach_empty. Qed.


(** ** The store on the campus *)

Example varchar_cuts_trailing_spaces :
  coerce (varchar 3) (VText "abc  ") = VText "abc"
  /\ coerce (varchar 3) (VText "abcd") = VText "abcd"
  /\ has_type (varchar 3) (VText "abcd") = false.
Proof. repeat split. Qed.

(** The two bytes 195 169 are one character (e with an acute accent): three
    of them fit varchar(3), although they are six bytes. *)
Example varchar_counts_characters :
  let e_acute := String "195"%char (String "169"%char EmptyString) in
  String.length (e_acute ++ e_acute ++ e_acute) = 6%nat
  /\ has_type (varchar 3) (VText (e_acute ++ e_acute ++ e_acute)) = true
  /\ has_type (varchar 3) (VText (e_acute ++ e_acute ++ e_acute ++ "a"))
     = false
  /\ coerce (varchar 3) (VText (e_acute ++ e_acute ++ e_acute ++ "  "))
     = VText (e_acute ++ e_acute ++ e_acute).
Proof. repeat split. Qed.

Example class_defaults :
  get "capacity" class_row = VInt 50
  /\ get "status" class_row = VText "active"
  /\ get "id" class_row = VInt 1.
Proof. repeat split. Qed.

Example unknown_teacher_refused :
  snd (insert catalog classes 0 (("teacherId", VText "nobody") :: new_class))
  = Err (ForeignKeyViolation classes "teacherId").
Proof. vm_compute. reflexivity. Qed.

Example unknown_department_refused :
  snd (insert catalog subjects 0
         [("departmentId", VInt 9); ("code", VText "CS102");
          ("name", VText "Logic")])
  = Err (ForeignKeyViolation subjects "departmentId").
Proof. vm_compute. reflexivity. Qed.

Example invite_code_taken :
  snd (insert campus classes 0 new_class)
  = Err (UniqueViolation "classes_invite_code_unique").
Proof. vm_compute. reflexivity. Qed.

Example explicit_null_role_refused :
  snd (insert catalog user 0 (("role", VNull) :: new_student))
  = Err (NotNullViolation user "role").
Proof. vm_compute. reflexivity. Qed.

Example deleteClass_cascades :
  let q := delete enrolled classes (where_eq "id" (VInt 1)) in
  snd q = Ok [class_row]
  /\ rows (fst q) classes = [] /\ rows (fst q) enrollments = []
  /\ rows (fst q) user = rows enrolled user.
Proof. vm_compute. repeat split. Qed.

End EngineFacts.

(* ================================================================== *)
(** * Deletes: restrict, cascade and no action *)
(* ================================================================== *)

Module Integrity.
Import Engine Props EngineFacts.

(** ** Departments *)

(** C3.  A department that a subject references cannot be deleted: the
    statement [db.delete(departments).where(eq(departments.id, d))] fails
    with the violation of the foreign key subjects.departmentId (ON DELETE
    RESTRICT; the failure the specification calls HasDependentSubjects) and
    the store after the statement is the store before it. *)
Theorem deleteDepartment_restrict (s : store) (d : Z) (D S : row) :
  In D (rows s departments) -> get "id" D = VInt d ->
  In S (rows s subjects) -> get "departmentId" S = VInt d ->
  delete s departments (where_eq "id" (VInt d))
  = (s, Err (ForeignKeyViolation subjects "departmentId")).
Proof.
  intros HD Hd HS Hs. unfold delete. run_delete.
  rewrite (existsb_refers fk_subjects_department _ _ S D);
    [reflexivity|assumption| | |].
  - apply filter_In. rewrite where_eq_true. intuition discriminate.
  - cbn. congruence.
  - cbn. rewrite Hs. discriminate.
Qed.

Lemma deleteDepartment_restrict_witness :
  In department_row (rows campus departments)
  /\ In subject_row (rows campus subjects)
  /\ delete campus departments (where_eq "id" (VInt 1))
     = (campus, Err (ForeignKeyViolation subjects "departmentId")).
Proof.
  assert (HD : In department_row (rows campus departments))
    by (vm_compute; left; reflexivity).
  assert (HS : In subject_row (rows campus subjects))
    by (vm_compute; left; reflexivity).
  split; [exact HD|]. split; [exact HS|].
  apply (deleteDepartment_restrict campus 1 department_row subject_row);
    [exact HD|reflexivity|exact HS|reflexivity].
Defined.

(** ** Subjects *)

(** What the cascade from subjects leaves in each table. *)
Lemma delete_rows_subjects (st : table -> list row) (w : row -> bool) :
  exists st',
    delete_rows depth st subjects w = Ok st' /\
    st' subjects = filter (fun r => negb (w r)) (st subjects) /\
    st' classes
    = filter (fun c => negb (refers fk_classes_subject
                                    (filter w (st subjects)) c))
             (st classes) /\
    st' enrollments
    = filter (fun e => negb (refers fk_enrollments_class
                (filter (refers fk_classes_subject (filter w (st subjects)))
                        (st classes)) e))
             (st enrollments) /\
    st' user = st user /\ st' session = st session /\
    st' account = st account /\ st' verification = st verification /\
    st' departments = st departments.
Proof.
  eexists. split.
  - run_delete. reflexivity.
  - repeat split; reflexivity.
Qed.

Lemma orphaned_same_parents (old new : table -> list row) (k : fk) :
  new (ref_table (fk_ref k)) = old (ref_table (fk_ref k)) ->
  orphaned old new k = false.
Proof.
  intro H. unfold orphaned. rewrite H. apply existsb_false.
  intros c _. apply andb_negb_r.
Qed.

(** Both NO ACTION keys point at the user table. *)
Lemma no_action_error_none (old new : table -> list row) :
  new user = old user -> no_action_error old new = None.
Proof.
  intro H. unfold no_action_error. rewrite foreign_keys_eq.
  cbn [find_map onDelete fk_ref fk_session_user fk_account_user
       fk_subjects_department fk_classes_subject fk_classes_teacher
       fk_enrollments_student fk_enrollments_class].
  rewrite !orphaned_same_parents by exact H. reflexivity.
Qed.

(** C4.  Deleting a subject always succeeds.  The one statement
    [db.delete(subjects).where(eq(subjects.id, k))] takes the store to a
    store without the subject, without the classes of the subject and
    without the enrollments in those classes; every other row is kept.
    The statement is a single step of the store: there is no state
    between the one before and the one after. *)
Theorem deleteSubject_cascades (s : store) (k : Z) (S : row) :
  In S (rows s subjects) -> get "id" S = VInt k ->
  exists s' deleted,
    delete s subjects (where_eq "id" (VInt k)) = (s', Ok deleted) /\
    In S deleted /\
    (forall r, In r (rows s' subjects) <->
               In r (rows s subjects) /\ get "id" r <> VInt k) /\
    (forall c, In c (rows s' classes) <->
               In c (rows s classes) /\ get "subjectId" c <> VInt k) /\
    (forall e, In e (rows s' enrollments) <->
               In e (rows s enrollments) /\
               ~ exists c, In c (rows s classes) /\
                           get "subjectId" c = VInt k /\
                           get "classId" e = get "id" c /\
                           get "classId" e <> VNull) /\
    (forall t, t <> subjects -> t <> classes -> t <> enrollments ->
               rows s' t = rows s t) /\
    seq s' = seq s.
Proof.
  intros HS Hk.
  destruct (delete_rows_subjects (rows s) (where_eq "id" (VInt k)))
    as (st' & Hdel & Hsub & Hcls & Henr & Hu & Hse & Hac & Hve & Hde).
  assert (Hvict : forall p,
             In p (filter (where_eq "id" (VInt k)) (rows s subjects))
             <-> In p (rows s subjects) /\ get "id" p = VInt k).
  { intro p. rewrite filter_In, where_eq_true. intuition discriminate. }
  assert (Hrc : forall c,
             refers fk_classes_subject
               (filter (where_eq "id" (VInt k)) (rows s subjects)) c = true
             <-> get "subjectId" c = VInt k).
  { intro c. rewrite refers_iff. cbn. split.
    - intros (p & Hp & He & _). apply Hvict in Hp. destruct Hp. congruence.
    - intro Hc. exists S. rewrite Hvict, Hc, Hk. intuition discriminate. }
  exists (mkStore st' (seq s)),
         (filter (where_eq "id" (VInt k)) (rows s subjects)).
  split; [|split; [|split; [|split; [|split; [|split]]]]].
  - unfold delete. rewrite Hdel, no_action_error_none by exact Hu.
    reflexivity.
  - apply Hvict. auto.
  - intro r. cbn [rows]. rewrite Hsub, filter_In, negb_true_iff.
    rewrite <- not_true_iff_false, where_eq_true. intuition discriminate.
  - intro c. cbn [rows]. rewrite Hcls, filter_In, negb_true_iff.
    rewrite <- not_true_iff_false, Hrc. tauto.
  - intro e. cbn [rows]. rewrite Henr, filter_In, negb_true_iff.
    rewrite <- not_true_iff_false, refers_iff. cbn.
    split; intros [He Hn]; (split; [exact He|]); intros (c & Hc & H1 & H2).
    + apply Hn. exists c. rewrite filter_In, Hrc. tauto.
    + apply Hn. exists c. rewrite filter_In, Hrc in Hc. tauto.
  - intros t H1 H2 H3. cbn [rows]. destruct t; congruence.
  - reflexivity.
Qed.

Lemma deleteSubject_cascades_witness :
  In subject_row (rows enrolled subjects)
  /\ rows enrolled classes <> [] /\ rows enrolled enrollments <> []
  /\ exists s' deleted,
       delete enrolled subjects (where_eq "id" (VInt 1)) = (s', Ok deleted)
       /\ In subject_row deleted
       /\ (forall c, In c (rows s' classes) <->
                     In c (rows enrolled classes)
                     /\ get "subjectId" c <> VInt 1).
Proof.
  assert (HS : In subject_row (rows enrolled subjects))
    by (vm_compute; left; reflexivity).
  split; [exact HS|]. split; [vm_compute; discriminate|].
  split; [vm_compute; discriminate|].
  destruct (deleteSubject_cascades enrolled 1 subject_row HS eq_refl)
    as (s' & deleted & Hq & Hin & _ & Hc & _).
  exists s', deleted. split; [exact Hq|]. split; [exact Hin|exact Hc].
Defined.

(** ** Users *)



(** What the cascade from user leaves in each table, when no class is
    taught by a deleted user. *)
Lemma delete_rows_user (st : table -> list row) (w : row -> bool) :
  existsb (refers fk_classes_teacher (filter w (st user))) (st classes)
  = false ->
  exists st',
    delete_rows depth st user w = Ok st' /\
    st' user = filter (fun r => negb (w r)) (st user) /\
    st' enrollments
    = filter (fun e => negb (refers fk_enrollments_student
                                    (filter w (st user)) e))
             (st enrollments) /\
    st' session = st session /\ st' account = st account /\
    st' verification = st verification /\
    st' departments = st departments /\
    st' subjects = st subjects /\ st' classes = st classes.
Proof.
  intro Hr. eexists. split.
  - unfold depth. cbn [List.length all_tables]. step_delete.
    rewrite referencing_user. step_delete. rewrite Hr. run_delete.
    reflexivity.
  - repeat split; reflexivity.
Qed.

(** After the users with id [uid] are gone, a row of the child table of
    [k] has lost its parent exactly when it referenced that id. *)
Lemma orphaned_user
    (old new : table -> list row) (k : fk) (uid : string) (u : row) :
  ref_table (fk_ref k) = user -> ref_column (fk_ref k) = "id" ->
  In u (old user) -> get "id" u = VText uid ->
  new user = filter (fun r => negb (where_eq "id" (VText uid) r)) (old user) ->
  new (fk_child k) = old (fk_child k) ->
  orphaned old new k
  = existsb (where_eq (fk_col k) (VText uid)) (old (fk_child k)).
Proof.
  intros Ht Hc Hu Hid Hnew Hch. unfold orphaned. rewrite Ht, Hch, Hnew.
  apply existsb_pointwise. intro c. apply eq_true_iff_eq.
  rewrite andb_true_iff, negb_true_iff, <- not_true_iff_false.
  rewrite !refers_iff, where_eq_true, Hc. split.
  - intros [(p & Hp & He & Hn) Hno]. split; [|discriminate].
    destruct (where_eq "id" (VText uid) p) eqn:Ew.
    + apply where_eq_true in Ew. destruct Ew. congruence.
    + exfalso. apply Hno. exists p. rewrite filter_In, Ew. auto.
  - intros [He _]. split.
    + exists u. rewrite He, Hid. intuition discriminate.
    + intros (p & Hp & He' & _). apply filter_In in Hp as [_ Hp].
      apply negb_true_iff in Hp.
      rewrite <- not_true_iff_false, where_eq_true in Hp.
      apply Hp. split; [congruence|discriminate].
Qed.

(** C2, as the schema has it.  For a user who teaches no class, the
    statement [db.delete(user).where(eq(user.id, uid))]
    - is rejected, with the store unchanged, when a session row or an
      account row has this userId: session.userId and account.userId
      reference user.id without an ON DELETE action, and the statement
      fails with the violation of one of the two, of a table that holds
      such a row;
    - otherwise succeeds, removes the user and every enrollment with this
      studentId, and keeps every other row. *)
Theorem deleteUser_outcome (s : store) (uid : string) (u : row) :
  In u (rows s user) -> get "id" u = VText uid ->
  (forall c, In c (rows s classes) -> get "teacherId" c <> VText uid) ->
  let q := delete s user (where_eq "id" (VText uid)) in
  let has_session :=
    existsb (where_eq "userId" (VText uid)) (rows s session) in
  let has_account :=
    existsb (where_eq "userId" (VText uid)) (rows s account) in
  if has_session || has_account
  then exists e,
      q = (s, Err e) /\
      ((e = ForeignKeyViolation session "userId" /\ has_session = true)
       \/ (e = ForeignKeyViolation account "userId" /\ has_account = true))
  else exists s' deleted,
      q = (s', Ok deleted) /\
      In u deleted /\
      (forall r, In r (rows s' user) <->
                 In r (rows s user) /\ get "id" r <> VText uid) /\
      (forall e, In e (rows s' enrollments) <->
                 In e (rows s enrollments) /\ get "studentId" e <> VText uid) /\
      (forall t, t <> user -> t <> enrollments -> rows s' t = rows s t).
Proof.
  intros Hu Hid Hteach q has_session has_account.
  subst q has_session has_account.
  assert (Hvict : forall p,
             In p (filter (where_eq "id" (VText uid)) (rows s user))
             <-> In p (rows s user) /\ get "id" p = VText uid).
  { intro p. rewrite filter_In, where_eq_true. intuition discriminate. }
  assert (Hre : forall k c, ref_column (fk_ref k) = "id" ->
             (refers k (filter (where_eq "id" (VText uid)) (rows s user)) c
              = true
              <-> get (fk_col k) c = VText uid)).
  { intros k c Hk. rewrite refers_iff, Hk. split.
    - intros (p & Hp & He & _). apply Hvict in Hp. destruct Hp. congruence.
    - intro Hc. exists u. rewrite Hvict, Hc, Hid. intuition discriminate. }
  destruct (delete_rows_user (rows s) (where_eq "id" (VText uid)))
    as (st' & Hdel & Husr & Henr & Hse & Hac & Hve & Hde & Hsu & Hcl).
  { apply existsb_false. intros c Hc. apply not_true_iff_false.
    rewrite Hre by reflexivity. cbn. auto. }
  unfold delete. rewrite Hdel. unfold no_action_error.
  rewrite foreign_keys_eq.
  cbn [find_map onDelete fk_ref fk_session_user fk_account_user
       fk_subjects_department fk_classes_subject fk_classes_teacher
       fk_enrollments_student fk_enrollments_class].
  rewrite (orphaned_user (rows s) st' fk_session_user uid u)
    by (assumption || reflexivity).
  rewrite (orphaned_user (rows s) st' fk_account_user uid u)
    by (assumption || reflexivity).
  cbn [fk_col fk_child fk_session_user fk_account_user].
  destruct (existsb _ (rows s session)).
  { cbn [orb]. eexists. split; [reflexivity|]. left. split; reflexivity. }
  destruct (existsb _ (rows s account)).
  { cbn [orb]. eexists. split; [reflexivity|]. right. split; reflexivity. }
  cbn [orb].
  exists (mkStore st' (seq s)),
         (filter (where_eq "id" (VText uid)) (rows s user)).
  split; [reflexivity|]. split; [apply Hvict; auto|]. split; [|split].
  - intro r. cbn [rows]. rewrite Husr, filter_In, negb_true_iff.
    rewrite <- not_true_iff_false, where_eq_true. intuition discriminate.
  - intro e. cbn [rows]. rewrite Henr, filter_In, negb_true_iff.
    rewrite <- not_true_iff_false, Hre by reflexivity. cbn. tauto.
  - intros t H1 H2. cbn [rows]. destruct t; congruence.
Qed.

Lemma student_teaches_nothing (s : store) :
  rows s classes = [class_row] ->
  forall c, In c (rows s classes) -> get "teacherId" c <> VText "s1".
Proof. intros -> c [<-|[]]. discriminate. Qed.

Lemma deleteUser_outcome_witness :
  In student_row (rows enrolled user)
  /\ (forall c, In c (rows enrolled classes) ->
                get "teacherId" c <> VText "s1")
  /\ rows enrolled enrollments <> []
  /\ exists s' deleted,
       delete enrolled user (where_eq "id" (VText "s1")) = (s', Ok deleted)
       /\ In student_row deleted
       /\ (forall e, In e (rows s' enrollments) <->
                     In e (rows enrolled enrollments)
                     /\ get "studentId" e <> VText "s1").
Proof.
  assert (Hu : In student_row (rows enrolled user))
    by (vm_compute; right; left; reflexivity).
  assert (E : rows enrolled classes = [class_row])
    by (vm_compute; reflexivity).
  pose proof (student_teaches_nothing enrolled E) as Hc.
  assert (Es : existsb (where_eq "userId" (VText "s1"))
                       (rows enrolled session) = false)
    by (vm_compute; reflexivity).
  assert (Ea : existsb (where_eq "userId" (VText "s1"))
                       (rows enrolled account) = false)
    by (vm_compute; reflexivity).
  split; [exact Hu|]. split; [exact Hc|].
  split; [vm_compute; discriminate|].
  pose proof (deleteUser_outcome enrolled "s1" student_row Hu eq_refl Hc)
    as H.
  cbv zeta in H. rewrite Es, Ea in H. cbn [orb] in H.
  destruct H as (s' & deleted & Hq & Hin & _ & He & _).
  exists s', deleted. split; [exact Hq|]. split; [exact Hin|exact He].
Defined.

(** C2 as the specification words it fails: s1 teaches no class and is
    logged in; the delete is rejected and the session row stays. *)
Lemma deleteUser_with_session_rejected :
  In student_row (rows logged_in user)
  /\ (forall c, In c (rows logged_in classes) ->
                get "teacherId" c <> VText "s1")
  /\ delete logged_in user (where_eq "id" (VText "s1"))
     = (logged_in, Err (ForeignKeyViolation session "userId"))
  /\ In session_row (rows logged_in session)
  /\ get "userId" session_row = VText "s1".
Proof.
  split; [vm_compute; right; left; reflexivity|].
  split; [apply student_teaches_nothing; vm_compute; reflexivity|].
  split; [vm_compute; reflexivity|].
  split; [vm_compute; left; reflexivity|reflexivity].
Qed.

End Integrity.

(* ================================================================== *)
(** * Inserts: defaults, column checks and unique indexes *)
(* ================================================================== *)

Module Inserts.
Import Engine Props EngineFacts.

Lemma same_key_id_false (r x : row) :
  get "id" x <> get "id" r -> same_key ["id"] r x = false.
Proof.
  intro H. unfold same_key. cbn. rewrite andb_true_r.
  apply not_true_iff_false. rewrite key_eqb_true. intros [E _]. congruence.
Qed.



(** ** Enrollments *)

(** C1.  The index enrollments_student_class_unique is built with [index],
    not [uniqueIndex]: the only unique index of the table is its primary
    key.  On the campus, where student s1 and class 1 exist, the statement
    [db.insert(enrollments).values({ studentId: "s1", classId: 1 })] run
    twice succeeds twice and leaves two rows with the pair (s1, 1). *)
Theorem double_enrollment_accepted :
  unique_constraints Schema.enrollments_table = [("enrollments_pkey", ["id"])]
  /\
  let q1 := insert campus enrollments 0 new_enrollment in
  let q2 := insert (fst q1) enrollments 1 new_enrollment in
  reachable (fst q2)
  /\ exists r1 r2,
       snd q1 = Ok r1 /\ snd q2 = Ok r2
       /\ rows (fst q2) enrollments = [r1; r2]
       /\ r1 <> r2
       /\ get "studentId" r1 = VText "s1" /\ get "classId" r1 = VInt 1
       /\ get "studentId" r2 = VText "s1" /\ get "classId" r2 = VInt 1.
Proof.
  split; [reflexivity|]. intros q1 q2. split.
  - subst q1 q2. do 2 apply reach_insert. exact campus_reachable.
  - eexists _, _.
    split; [vm_compute; reflexivity|].
    split; [vm_compute; reflexivity|].
    split; [vm_compute; reflexivity|].
    split; [discriminate|].
    repeat split; reflexivity.
Qed.

(** ** Users *)

(** C9.  A user row inserted without a role gets the role student, for
    every store and every other value: the column is declared
    [.notNull().default("student")]. *)
Theorem user_role_defaults_to_student
    (s s' : store) (now : Z) (vals r : row) :
  lookup "role" vals = None ->
  insert s user now vals = (s', Ok r) ->
  get "role" r = VText "student" /\ In r (rows s' user).
Proof.
  intros Hrole Hins. unfold insert in Hins.
  destruct (insert_error s user _); [discriminate|].
  injection Hins as <- <-. split.
  - unfold build_row. cbn. rewrite Hrole. reflexivity.
  - cbn. apply in_or_app. right. left. reflexivity.
Qed.

Lemma user_role_defaults_to_student_witness :
  lookup "role" new_student = None
  /\ exists s',
       insert empty user 0 new_student = (s', Ok student_row)
       /\ get "role" student_row = VText "student"
       /\ In student_row (rows s' user).
Proof.
  split; [reflexivity|].
  eexists. split; [vm_compute; reflexivity|].
  apply (user_role_defaults_to_student empty _ 0 new_student student_row);
    [reflexivity|vm_compute; reflexivity].
Defined.

Lemma user_unique_violation_is_pkey
    (s s' : store) (now : Z) (vals : row) (c : string) :
  insert s user now vals = (s', Err (UniqueViolation c)) -> c = "user_pkey".
Proof.
  unfold insert, insert_error. intro H.
  destruct (type_error user _) eqn:Hty.
  { apply find_map_some in Hty as (col & _ & Hty).
    destruct (has_type _ _); [discriminate|]. congruence. }
  destruct (not_null_error user _) eqn:Hnn.
  { apply find_map_some in Hnn as (col & _ & Hnn).
    destruct (_ && _); [|discriminate]. congruence. }
  destruct (unique_error _ user _) eqn:Hun.
  { unfold unique_error in Hun. cbn -[same_key] in Hun.
    destruct (existsb _ _); [|discriminate]. congruence. }
  destruct (fk_error _ user _) eqn:Hfk; [|discriminate].
  cbn in Hfk. discriminate.
Qed.

(** C10.  The user table has no unique index on email.  In every store,
    inserting a user whose email is the email of an existing row
    - never fails on a unique index other than the primary key, and
    - succeeds when the row passes the column checks and its id is not
      taken; the store then holds two distinct user rows with that email. *)
Theorem user_email_not_unique
    (s : store) (now : Z) (vals x : row) (e : string) :
  let r := build_row user vals (seq s user) now in
  In x (rows s user) -> get "email" x = VText e ->
  lookup "email" vals = Some (VText e) ->
  (forall s' c, insert s user now vals = (s', Err (UniqueViolation c)) ->
                c = "user_pkey")
  /\
  (well_typed user r ->
   (forall y, In y (rows s user) -> get "id" y <> get "id" r) ->
   exists s',
     insert s user now vals = (s', Ok r) /\
     In x (rows s' user) /\ In r (rows s' user) /\ r <> x /\
     get "email" r = VText e).
Proof.
  intros r Hx He Hv. split.
  { intros s' c. apply user_unique_violation_is_pkey. }
  intros [Hty Hnn] Hid.
  eexists. split; [|split; [|split; [|split]]].
  - unfold insert, insert_error. fold r. rewrite Hty, Hnn.
    replace (unique_error (rows s) user r) with (@None error).
    + cbn. reflexivity.
    + unfold unique_error. cbn [find_map unique_constraints Schema.decl].
      cbn. rewrite existsb_false; [reflexivity|].
      intros y Hy. apply same_key_id_false. auto.
  - cbn. apply in_or_app. left. exact Hx.
  - cbn. apply in_or_app. right. left. reflexivity.
  - intro E. apply (Hid x Hx). now rewrite E.
  - subst r. unfold build_row. cbn. rewrite Hv. reflexivity.
Qed.

Lemma user_email_not_unique_witness :
  In teacher_row (rows campus user)
  /\ get "email" teacher_row = VText "ada@uni.edu"
  /\ lookup "email" ada_again = Some (VText "ada@uni.edu")
  /\ exists s' r,
       insert campus user 5 ada_again = (s', Ok r)
       /\ In teacher_row (rows s' user) /\ In r (rows s' user)
       /\ r <> teacher_row /\ get "email" r = VText "ada@uni.edu".
Proof.
  assert (Hx : In teacher_row (rows campus user))
    by (vm_compute; left; reflexivity).
  split; [exact Hx|]. split; [reflexivity|]. split; [reflexivity|].
  destruct (proj2 (user_email_not_unique campus 5 ada_again teacher_row
                     "ada@uni.edu" Hx eq_refl eq_refl))
    as (s' & H).
  - split; vm_compute; reflexivity.
  - intros y Hy. vm_compute in Hy.
    destruct Hy as [<-|[<-|[]]]; vm_compute; discriminate.
  - exists s', (build_row user ada_again (seq campus user) 5). exact H.
Defined.

(** ** Classes *)

Ltac each_member H :=
  cbn in H;
  repeat (destruct H as [<- | H]; [ | ]); [ .. | contradiction ].

(** The checks of INSERT do not look at the sign of the capacity. *)
Lemma insert_error_capacity (s : store) (now : Z) (vals : row) (z : Z) :
  lookup "capacity" vals = None ->
  int4 z = true ->
  insert_error s classes
    (build_row classes (("capacity", VInt z) :: vals) (seq s classes) now)
  = insert_error s classes (build_row classes vals (seq s classes) now).
Proof.
  intros Hcap Hz.
  assert (Hty : type_error classes
             (build_row classes (("capacity", VInt z) :: vals)
                        (seq s classes) now)
           = type_error classes
               (build_row classes vals (seq s classes) now)).
  { unfold type_error. apply find_map_pointwise. intros c Hc.
    each_member Hc; unfold build_row; cbn -[int4]; try reflexivity.
    rewrite Hcap, Hz. reflexivity. }
  assert (Hnn : not_null_error classes
             (build_row classes (("capacity", VInt z) :: vals)
                        (seq s classes) now)
           = not_null_error classes
               (build_row classes vals (seq s classes) now)).
  { unfold not_null_error. apply find_map_pointwise. intros c Hc.
    each_member Hc; unfold build_row; cbn; try reflexivity.
    rewrite Hcap. reflexivity. }
  assert (Hun : unique_error (rows s) classes
             (build_row classes (("capacity", VInt z) :: vals)
                        (seq s classes) now)
           = unique_error (rows s) classes
               (build_row classes vals (seq s classes) now)).
  { unfold unique_error. apply find_map_pointwise. intros u Hu.
    each_member Hu; unfold build_row; cbn; reflexivity. }
  assert (Hfk : fk_error (rows s) classes
             (build_row classes (("capacity", VInt z) :: vals)
                        (seq s classes) now)
           = fk_error (rows s) classes
               (build_row classes vals (seq s classes) now)).
  { unfold fk_error. apply find_map_pointwise. intros c Hc.
    each_member Hc; unfold build_row; cbn; reflexivity. }
  unfold insert_error. rewrite Hty, Hnn, Hun, Hfk. reflexivity.
Qed.

(** C6, as the schema has it.  A class inserted with no capacity gets
    capacity 50.  The column is a plain [integer(...).notNull().default(50)]
    with no check on its value: whenever the insert without a capacity
    creates the class, the same insert with any 32-bit capacity, zero and
    negative ones included, creates it too, with that capacity. *)
Theorem capacity_default_and_unchecked
    (s s0 : store) (now : Z) (vals r0 : row) (z : Z) :
  lookup "capacity" vals = None ->
  int4 z = true ->
  insert s classes now vals = (s0, Ok r0) ->
  get "capacity" r0 = VInt 50 /\
  In r0 (rows s0 classes) /\
  exists s1 r1,
    insert s classes now (("capacity", VInt z) :: vals) = (s1, Ok r1) /\
    get "capacity" r1 = VInt z /\ In r1 (rows s1 classes).
Proof.
  intros Hcap Hz H0. unfold insert in *.
  rewrite insert_error_capacity by assumption.
  destruct (insert_error s classes _); [discriminate|].
  injection H0 as <- <-. split; [|split].
  - unfold build_row. cbn. rewrite Hcap. reflexivity.
  - cbn. apply in_or_app. right. left. reflexivity.
  - eexists _, _. split; [reflexivity|]. split.
    + unfold build_row. cbn. reflexivity.
    + cbn. apply in_or_app. right. left. reflexivity.
Qed.

Lemma capacity_default_and_unchecked_witness :
  lookup "capacity" new_class = None
  /\ int4 (-5) = true
  /\ (exists s0, insert catalog classes 0 new_class = (s0, Ok class_row))
  /\ get "capacity" class_row = VInt 50
  /\ exists s1 r1,
       insert catalog classes 0 (("capacity", VInt (-5)) :: new_class)
       = (s1, Ok r1)
       /\ get "capacity" r1 = VInt (-5) /\ In r1 (rows s1 classes).
Proof.
  split; [reflexivity|]. split; [reflexivity|].
  split; [eexists; vm_compute; reflexivity|].
  destruct (capacity_default_and_unchecked catalog campus 0 new_class
              class_row (-5) eq_refl eq_refl)
    as (H50 & _ & H).
  - vm_compute. reflexivity.
  - split; [exact H50|exact H].
Defined.

(** C6 as the specification words it fails: a class with capacity 0 is
    created. *)
Lemma class_without_seats_created :
  lookup "capacity" new_class_no_seats = Some (VInt 0)
  /\ exists s' r,
       insert catalog classes 0 new_class_no_seats = (s', Ok r)
       /\ get "capacity" r = VInt 0
       /\ rows s' classes = [r].
Proof.
  split; [reflexivity|].
  eexists _, _. split; [vm_compute; reflexivity|].
  split; [reflexivity|vm_compute; reflexivity].
Qed.

(** ** Departments and subjects *)









End Inserts.

(* ================================================================== *)
(** * The order of the pipeline *)
(* ================================================================== *)

Module PipelineFacts.
Import Express Props.

Lemma prefixb_refl (s : string) : prefixb s s = true.
Proof.
  induction s as [|a s IH]; cbn; [reflexivity|].
  now rewrite Ascii.eqb_refl, IH.
Qed.

Lemma prefixb_trans (p q s : string) :
  prefixb p q = true -> prefixb q s = true -> prefixb p s = true.
Proof.
  revert q s. induction p as [|a p IH]; intros q s Hpq Hqs; [reflexivity|].
  destruct q as [|b q]; [discriminate|]. destruct s as [|c s]; [discriminate|].
  cbn in *. apply andb_true_iff in Hpq as [Hab Hpq], Hqs as [Hbc Hqs].
  apply Ascii.eqb_eq in Hab, Hbc. subst. rewrite Ascii.eqb_refl. cbn. eauto.
Qed.

(** Two prefixes of one string are prefixes of one another. *)
Lemma prefixb_comparable (p q s : string) :
  prefixb p s = true -> prefixb q s = true ->
  prefixb p q = true \/ prefixb q p = true.
Proof.
  revert p q. induction s as [|c s IH]; intros p q Hp Hq.
  - destruct p; [|discriminate]. left. reflexivity.
  - destruct p as [|a p]; [left; reflexivity|].
    destruct q as [|b q]; [right; reflexivity|].
    cbn in Hp, Hq. apply andb_true_iff in Hp as [Ha Hp], Hq as [Hb Hq].
    apply Ascii.eqb_eq in Ha, Hb. subst a b.
    cbn. rewrite Ascii.eqb_refl. cbn. apply IH; assumption.
Qed.

(** A path under /api/subjects does not match /api/auth/*splat. *)
Lemma subjects_not_auth (path : string) :
  under "/api/subjects" path = true ->
  matches_pattern (wildcard "/api/auth/") path = false.
Proof.
  intro H. unfold matches_pattern.
  apply not_true_iff_false. intro Ha. apply andb_true_iff in Ha as [Ha _].
  assert (Hs : prefixb (to_lower "/api/subjects") (to_lower path) = true).
  { unfold under in H. apply orb_true_iff in H as [H|H].
    - apply String.eqb_eq in H. rewrite <- H. apply prefixb_refl.
    - unfold starts_with in H. eapply prefixb_trans; [|exact H]. reflexivity. }
  unfold starts_with in Ha.
  destruct (prefixb_comparable _ _ _ Ha Hs) as [C|C];
    vm_compute in C; discriminate.
Qed.

Example routing_ignores_case :
  IndexAuth.handle dev
    (mkRequest POST "/API/Auth/sign-out" None NoBody)
  = ([cors; toNodeHandler_auth], responded toNodeHandler_auth).
Proof. vm_compute. reflexivity. Qed.

Example bare_auth_prefix_is_no_auth_route :
  IndexAuth.handle dev (mkRequest GET "/api/auth/" None NoBody)
  = ([cors; express_json; securityMiddleware], not_found).
Proof. vm_compute. reflexivity. Qed.

Example malformed_json_stops_the_walk :
  Index.handle dev
    (mkRequest POST "/api/subjects" None (JsonBody false))
  = ([cors; express_json], failed express_json).
Proof. vm_compute. reflexivity. Qed.

Example index_has_no_auth_route :
  Index.handle dev sign_in
  = ([cors; express_json; securityMiddleware], not_found).
Proof. vm_compute. reflexivity. Qed.

Example escaped_path_is_decoded :
  decodes "sign-in/email%20address" = true
  /\ decodes "%E0%A4%A4" = true
  /\ decodes "%E0%A4%A" = false
  /\ decodes "100%" = false
  /\ decodes "%zz" = false
  /\ decodes "%C0%80" = false
  /\ decodes "%ED%A0%80" = false
  /\ decodes "%F4%90%80%80" = false.
Proof. repeat split. Qed.

Example malformed_escape_is_refused :
  IndexAuth.handle dev (mkRequest GET "/api/auth/%E0%A4%A" None NoBody)
  = ([cors], bad_request)
  /\ IndexAuth.handle dev (mkRequest GET "/api/auth/%E0%A4%A4" None NoBody)
     = ([cors; toNodeHandler_auth], responded toNodeHandler_auth)
  /\ Index.handle dev (mkRequest GET "/api/auth/%E0%A4%A" None NoBody)
     = ([cors; express_json; securityMiddleware], not_found).
Proof. repeat split; vm_compute; reflexivity. Qed.

(** What the entry file with the auth route does with a request that
    matches /api/auth/*splat. *)
Lemma auth_request_handled (e : externals) (req : request) :
  matches_pattern (wildcard "/api/auth/") (req_path req) = true ->
  IndexAuth.handle e req
  = match cors_signal (FRONTEND_URL e) req with
    | next =>
        if decodes (splat "/api/auth/" (req_path req))
        then ([cors; toNodeHandler_auth],
              if auth_answers e req then responded toNodeHandler_auth
              else failed toNodeHandler_auth)
        else ([cors], bad_request)
    | _ => ([cors], responded cors)
    end.
Proof.
  intro Ha. unfold IndexAuth.handle, IndexAuth.app.
  cbn [dispatch matches handler_of behave decode_fails]. rewrite Ha.
  unfold cors_signal.
  destruct (truthy (FRONTEND_URL e)), (req_method req),
    (decodes (splat "/api/auth/" (req_path req))), (auth_answers e req);
    reflexivity.
Qed.

(** What either entry file does with a request under /api/subjects. *)
Lemma subjects_request_handled (e : externals) (req : request) :
  under "/api/subjects" (req_path req) = true ->
  IndexAuth.handle e req = Index.handle e req
  /\ fst (Index.handle e req)
     = cors :: match cors_signal (FRONTEND_URL e) req with
               | next =>
                   express_json
                   :: match json_signal req with
                      | next =>
                          securityMiddleware
                          :: match security e req with
                             | next => [subjectsRouter]
                             | _ => []
                             end
                      | _ => []
                      end
               | _ => []
               end.
Proof.
  intro Hs. pose proof (subjects_not_auth _ Hs) as Hna.
  unfold IndexAuth.handle, IndexAuth.app, Index.handle, Index.app.
  cbn [dispatch matches handler_of behave decode_fails]. rewrite Hna, Hs.
  split; [reflexivity|].
  destruct (cors_signal (FRONTEND_URL e) req); [|reflexivity..].
  destruct (json_signal req); [|reflexivity..].
  destruct (security e req); [|reflexivity..].
  destruct (subjects_router e req); reflexivity.
Qed.

(** C8, as the entry files have it.
    - In the entry file that mounts the authentication provider, a request
      that matches /api/auth/*splat visits the CORS layer first.  The CORS
      layer answers a preflight (OPTIONS) request itself when FRONTEND_URL
      is set.  When it passes the request on, Express decodes the text the
      wildcard stands for: if it decodes, the request is handed to the
      handler of the provider, where its walk ends; if it does not (a
      malformed percent escape), Express answers 400 and the handler of
      the provider does not run.  In no case does the request reach the
      JSON parser, the security middleware or the subjects router.
    - In both entry files, a request under /api/subjects does not match
      the auth route, is treated alike by the two files, and visits CORS,
      then the JSON parser if CORS passed it on, then the security
      middleware if the parser passed it on, then the subjects router if
      the security middleware passed it on, and nothing else; when the
      three pass it on, it visits the four stages in that order. *)
Theorem pipeline_order (e : externals) (req : request) :
  (matches_pattern (wildcard "/api/auth/") (req_path req) = true ->
   (cors_signal (FRONTEND_URL e) req = next ->
    decodes (splat "/api/auth/" (req_path req)) = true ->
    fst (IndexAuth.handle e req) = [cors; toNodeHandler_auth])
   /\ (cors_signal (FRONTEND_URL e) req = next ->
       decodes (splat "/api/auth/" (req_path req)) = false ->
       IndexAuth.handle e req = ([cors], bad_request))
   /\ ~ In express_json (fst (IndexAuth.handle e req))
   /\ ~ In securityMiddleware (fst (IndexAuth.handle e req))
   /\ ~ In subjectsRouter (fst (IndexAuth.handle e req)))
  /\
  (under "/api/subjects" (req_path req) = true ->
   matches_pattern (wildcard "/api/auth/") (req_path req) = false
   /\ IndexAuth.handle e req = Index.handle e req
   /\ fst (Index.handle e req)
      = cors :: match cors_signal (FRONTEND_URL e) req with
                | next =>
                    express_json
                    :: match json_signal req with
                       | next =>
                           securityMiddleware
                           :: match security e req with
                              | next => [subjectsRouter]
                              | _ => []
                              end
                       | _ => []
                       end
                | _ => []
                end
   /\ (cors_signal (FRONTEND_URL e) req = next ->
       json_signal req = next ->
       security e req = next ->
       fst (Index.handle e req) = pipeline
       /\ fst (IndexAuth.handle e req) = pipeline)).
Proof.
  split.
  - intro Ha. rewrite (auth_request_handled e req Ha). split; [|split].
    + intros -> ->. reflexivity.
    + intros -> ->. reflexivity.
    + destruct (cors_signal (FRONTEND_URL e) req),
        (decodes (splat "/api/auth/" (req_path req))); cbn;
        intuition discriminate.
  - intro Hs. split; [exact (subjects_not_auth _ Hs)|].
    destruct (subjects_request_handled e req Hs) as [Hsame Hvisited].
    split; [exact Hsame|]. split; [exact Hvisited|].
    intros Hc Hj Hsec. rewrite Hsame, Hvisited, Hc, Hj, Hsec.
    split; reflexivity.
Qed.

Lemma pipeline_order_witness :
  matches_pattern (wildcard "/api/auth/") (req_path sign_in) = true
  /\ cors_signal (FRONTEND_URL dev) sign_in = next
  /\ decodes (splat "/api/auth/" (req_path sign_in)) = true
  /\ fst (IndexAuth.handle dev sign_in) = [cors; toNodeHandler_auth]
  /\ under "/api/subjects" (req_path list_subjects) = true
  /\ IndexAuth.handle dev list_subjects = Index.handle dev list_subjects
  /\ fst (Index.handle dev list_subjects)
     = [cors; express_json; securityMiddleware; subjectsRouter].
Proof.
  assert (Ha : matches_pattern (wildcard "/api/auth/") (req_path sign_in)
               = true) by (vm_compute; reflexivity).
  assert (Hc : cors_signal (FRONTEND_URL dev) sign_in = next)
    by reflexivity.
  assert (Hd : decodes (splat "/api/auth/" (req_path sign_in)) = true)
    by (vm_compute; reflexivity).
  assert (Hs : under "/api/subjects" (req_path list_subjects) = true)
    by (vm_compute; reflexivity).
  split; [exact Ha|]. split; [exact Hc|]. split; [exact Hd|]. split.
  - exact (proj1 (proj1 (pipeline_order dev sign_in) Ha) Hc Hd).
  - split; [exact Hs|].
    destruct (proj2 (pipeline_order dev list_subjects) Hs)
      as (_ & Hsame & _ & Hall).
    split; [exact Hsame|].
    exact (proj1 (Hall eq_refl eq_refl eq_refl)).
Defined.

(** C8 as the specification words it fails: a preflight request to the
    authentication route is answered by the CORS layer and is not handed to
    the handler of the provider. *)
Lemma preflight_not_handed_to_auth :
  matches_pattern (wildcard "/api/auth/") (req_path preflight) = true
  /\ IndexAuth.handle dev preflight = ([cors], responded cors)
  /\ ~ In toNodeHandler_auth (fst (IndexAuth.handle dev preflight)).
Proof.
  split; [vm_compute; reflexivity|]. split; [vm_compute; reflexivity|].
  vm_compute. intuition discriminate.
Qed.

End PipelineFacts.

(* ================================================================== *)
(** * Invariants of the store *)
(* ================================================================== *)

Module StoreInvariants.
Import Engine Props Invariants EngineFacts.

(** ** What a cascade leaves behind *)

Lemma closed_trans (a b c : table -> list row) :
  shrinks b c -> closed a b -> closed b c -> closed a c.
Proof.
  intros Hbc Hab Hc k x p Hk Ha Hx Hp Hm.
  apply (Hc k x p); auto. apply (Hab k x p); auto.
Qed.

Lemma shrinks_trans (a b c : table -> list row) :
  shrinks a b -> shrinks b c -> shrinks a c.
Proof. intros H1 H2 t x Hx. auto. Qed.

Lemma existsb_false_iff {A : Type} (f : A -> bool) (l : list A) :
  existsb f l = false <-> forall x, In x l -> f x = false.
Proof.
  split; [|apply existsb_false].
  intros H x Hx. destruct (f x) eqn:E; [|reflexivity].
  rewrite <- H. symmetry. apply existsb_exists. eauto.
Qed.

Lemma find_none_all {A : Type} (f : A -> bool) (l : list A) :
  find f l = None -> forall a, In a l -> f a = false.
Proof. intros H a Ha. exact (find_none f l H a Ha). Qed.

Lemma delete_rows_closed (fuel : nat) :
  forall st t doomed st',
    delete_rows fuel st t doomed = Ok st' ->
    shrinks st st' /\ closed st st'
    /\ forall x, In x (st' t) -> doomed x = false.
Proof.
  induction fuel as [|fuel IH]; intros st t doomed st' H; [discriminate|].
  assert (Hsh : shrinks st st').
  { intros t' x. now apply (delete_rows_subset _ _ _ _ _ H). }
  cbn [delete_rows] in H.
  destruct (find _ (referencing t)) eqn:Hfind; [discriminate|].
  set (victims := filter doomed (st t)) in *.
  set (st1 := upd st t (filter (fun r => negb (doomed r)) (st t))) in *.
  assert (Hfold : forall ks a b,
            fold_left
              (fun acc k =>
                 match acc with
                 | Err e => Err e
                 | Ok st' =>
                     match onDelete (fk_ref k) with
                     | cascade =>
                         delete_rows fuel st' (fk_child k) (refers k victims)
                     | _ => Ok st'
                     end
                 end) ks a = Ok b ->
            exists a0, a = Ok a0 /\ shrinks a0 b /\ closed a0 b /\
              forall k, In k ks -> onDelete (fk_ref k) = cascade ->
                        forall x, In x (b (fk_child k)) ->
                                  refers k victims x = false).
  { induction ks as [|k ks IHks]; intros a b Hf; cbn [fold_left] in Hf.
    - exists b. split; [exact Hf|]. split; [intros ? ?; auto|].
      split; [intros ? ? ? ? ? ? ? ?; auto|]. intros ? [].
    - apply IHks in Hf as (a1 & Ha1 & Hs1 & Hc1 & Hd1).
      destruct a as [a0|e]; [|discriminate].
      exists a0. split; [reflexivity|].
      destruct (onDelete (fk_ref k)) eqn:Hact.
      + injection Ha1 as <-. split; [exact Hs1|]. split; [exact Hc1|].
        intros k' [<-|Hk'] Hcas; [congruence|auto].
      + injection Ha1 as <-. split; [exact Hs1|]. split; [exact Hc1|].
        intros k' [<-|Hk'] Hcas; [congruence|auto].
      + destruct (IH _ _ _ _ Ha1) as (Hs0 & Hc0 & Hd0).
        split; [eapply shrinks_trans; eassumption|].
        split; [eapply closed_trans; eassumption|].
        intros k' [<-|Hk'] Hcas; [|auto].
        intros x Hx. apply Hd0. now apply Hs1. }
  apply Hfold in H as (a0 & Ha0 & Hs1 & Hc1 & Hd1). injection Ha0 as <-.
  split; [exact Hsh|]. split.
  - intros k c p Hk Hact Hc Hp Hm.
    destruct (table_eq_dec t (ref_table (fk_ref k))) as [Et|Ne].
    + destruct (doomed p) eqn:Hd.
      * exfalso.
        assert (Hv : In p victims).
        { unfold victims. rewrite Et. apply filter_In. auto. }
        assert (Hr : refers k victims c = true).
        { unfold refers. apply existsb_exists. eauto. }
        assert (Hkr : In k (referencing t)).
        { unfold referencing. apply filter_In. split; [exact Hk|].
          rewrite <- Et. destruct t; reflexivity. }
        destruct (onDelete (fk_ref k)) eqn:Hact'; [congruence| |].
        -- pose proof (find_none_all _ _ Hfind k Hkr) as Hn. cbn beta in Hn.
           unfold is_restrict in Hn. rewrite Hact' in Hn. cbn in Hn.
           rewrite <- not_true_iff_false in Hn. apply Hn.
           apply existsb_exists. exists c. split; [|exact Hr].
           now apply Hsh.
        -- rewrite (Hd1 k Hkr Hact' c Hc) in Hr. discriminate.
      * apply (Hc1 k c p); auto. unfold st1. rewrite <- Et, upd_same.
        apply filter_In. rewrite Hd. split; [|reflexivity].
        rewrite Et. exact Hp.
    + apply (Hc1 k c p); auto. unfold st1. rewrite upd_other by exact Ne.
      exact Hp.
  - intros x Hx. apply Hs1 in Hx. unfold st1 in Hx. rewrite upd_same in Hx.
    apply filter_In in Hx as [_ Hx]. now apply negb_true_iff in Hx.
Qed.

(** ** Referential integrity *)

Lemma refers_mono (k : fk) (ps ps' : list row) (c : row) :
  (forall p, In p ps -> In p ps') ->
  refers k ps c = true -> refers k ps' c = true.
Proof.
  intros H Hr. apply refers_iff in Hr as (p & Hp & He & Hn).
  apply refers_iff. exists p. auto.
Qed.

Lemma delete_ref_integrity (s : store) (t : table) (doomed : row -> bool) :
  ref_integrity (rows s) -> ref_integrity (rows (fst (delete s t doomed))).
Proof.
  intros Hs. unfold delete.
  destruct (delete_rows depth (rows s) t doomed) as [st'|e] eqn:E;
    [|exact Hs].
  destruct (no_action_error (rows s) st') eqn:N; [exact Hs|].
  cbn [fst rows]. destruct (delete_rows_closed _ _ _ _ _ E) as (Hsh & Hcl & _).
  intros k c Hk Hc.
  pose proof (Hs k c Hk (Hsh _ _ Hc)) as Hold.
  destruct (onDelete (fk_ref k)) eqn:Hact.
  - unfold no_action_error in N.
    assert (Ho : orphaned (rows s) st' k = false).
    { destruct (orphaned (rows s) st' k) eqn:Ho; [|reflexivity].
      exfalso. revert N. generalize foreign_keys, Hk.
      induction l as [|k0 l IHl]; intros Hin; [destruct Hin|].
      cbn [find_map]. destruct Hin as [->|Hin].
      - rewrite Hact, Ho. discriminate.
      - destruct (match onDelete (fk_ref k0) with
                  | no_action => _ | _ => _ end); [discriminate|]. auto. }
    unfold orphaned in Ho. rewrite existsb_false_iff in Ho.
    specialize (Ho c Hc). rewrite Hold in Ho. cbn in Ho.
    now apply negb_false_iff in Ho.
  - apply refers_iff in Hold as (p & Hp & He & Hn). apply refers_iff.
    exists p. split; [|auto]. apply (Hcl k c p); auto; [congruence|].
    apply key_eqb_true. auto.
  - apply refers_iff in Hold as (p & Hp & He & Hn). apply refers_iff.
    exists p. split; [|auto]. apply (Hcl k c p); auto; [congruence|].
    apply key_eqb_true. auto.
Qed.

Lemma find_map_none {A B : Type} (f : A -> option B) (l : list A) :
  find_map f l = None -> forall a, In a l -> f a = None.
Proof.
  induction l as [|a l IH]; simpl; intros H x Hx; [destruct Hx|].
  destruct (f a) eqn:E; [discriminate|].
  destruct Hx as [<-|Hx]; auto.
Qed.

Ltac each_column H :=
  cbn in H;
  repeat (destruct H as [<- | H]; [ | ]); [ .. | contradiction ].

(** Every column that references another table is NOT NULL. *)
Lemma fk_columns_not_null (t : table) (c : column) :
  In c (tbl_columns (Schema.decl t)) ->
  col_references c <> None -> col_notNull c = true.
Proof.
  intros Hc Hr. destruct t; each_column Hc;
    solve [reflexivity | exfalso; apply Hr; reflexivity].
Qed.

Lemma fk_of_column (k : fk) :
  In k foreign_keys ->
  exists c, In c (tbl_columns (Schema.decl (fk_child k)))
            /\ col_references c = Some (fk_ref k)
            /\ col_key c = fk_col k.
Proof.
  unfold foreign_keys. rewrite in_flat_map. intros (t & _ & Hk).
  unfold fks_of in Hk. apply in_flat_map in Hk as (c & Hc & Hk).
  destruct (col_references c) as [ref|] eqn:Hr; [|destruct Hk].
  destruct Hk as [<-|[]]. exists c. auto.
Qed.

(** A row that INSERT accepts has a parent for each of its foreign keys. *)
Lemma accepted_row_has_parents (s : store) (t : table) (r : row) (k : fk) :
  insert_error s t r = None ->
  In k foreign_keys -> fk_child k = t ->
  refers k (rows s (ref_table (fk_ref k))) r = true.
Proof.
  intros H Hk <-. destruct (fk_of_column k Hk) as (c & Hc & Hr & Hkey).
  unfold insert_error in H.
  destruct (type_error _ r); [discriminate|].
  destruct (not_null_error _ r) eqn:Hnn; [discriminate|].
  destruct (unique_error _ _ r); [discriminate|].
  pose proof (find_map_none _ _ H c Hc) as Hfk. cbn beta in Hfk.
  pose proof (find_map_none _ _ Hnn c Hc) as Hn. cbn beta in Hn.
  rewrite Hr in Hfk. cbn zeta in Hfk.
  rewrite (fk_columns_not_null _ c Hc) in Hn by congruence. cbn in Hn.
  rewrite Hkey in *.
  destruct (is_null (get (fk_col k) r)); [discriminate|]. cbn in Hfk.
  unfold refers.
  destruct (existsb _ _); [reflexivity|discriminate].
Qed.

Lemma insert_rows_grow (s : store) (t : table) (now : Z) (vals : row) :
  forall t' x, In x (rows s t') -> In x (rows (fst (insert s t now vals)) t').
Proof.
  intros t' x Hx. unfold insert.
  destruct (insert_error s t _); cbn [fst rows]; rewrite rows_draw;
    [exact Hx|].
  destruct (table_eq_dec t t') as [<-|Hne].
  - rewrite upd_same. apply in_or_app. now left.
  - now rewrite upd_other.
Qed.

Lemma insert_ref_integrity (s : store) (t : table) (now : Z) (vals : row) :
  ref_integrity (rows s) ->
  ref_integrity (rows (fst (insert s t now vals))).
Proof.
  intros Hs k c Hk Hc.
  apply (refers_mono k (rows s (ref_table (fk_ref k))));
    [intros p; apply insert_rows_grow|].
  unfold insert in Hc. destruct (insert_error s t _) eqn:E;
    cbn [fst rows] in Hc; rewrite rows_draw in Hc; [now apply Hs|].
  destruct (table_eq_dec t (fk_child k)) as [Et|Ne].
  - rewrite Et, upd_same in Hc. apply in_app_or in Hc as [Hc|[<-|[]]].
    + now apply Hs.
    + rewrite <- Et in *. now apply (accepted_row_has_parents s t).
  - rewrite upd_other in Hc by exact Ne. now apply Hs.
Qed.

Lemma reachable_ref_integrity (s : store) :
  reachable s -> ref_integrity (rows s).
Proof.
  induction 1.
  - intros k c _ [].
  - now apply insert_ref_integrity.
  - now apply delete_ref_integrity.
Qed.

(** ** Unique indexes *)

Lemma key_eqb_sym (a b : value) : key_eqb a b = key_eqb b a.
Proof.
  apply eq_true_iff_eq. rewrite !key_eqb_true.
  split; intros [-> H]; auto.
Qed.

Lemma same_key_sym (on : list string) (a b : row) :
  same_key on a b = same_key on b a.
Proof.
  unfold same_key. induction on as [|k on IH]; cbn; [reflexivity|].
  now rewrite key_eqb_sym, IH.
Qed.

Lemma distinct_on_filter (on : list string) (f : row -> bool) (l : list row) :
  distinct_on on l -> distinct_on on (filter f l).
Proof.
  induction l as [|a l IH]; cbn; [auto|]. intros [Ha Hl].
  destruct (f a); cbn; [|auto]. split; [|auto].
  intros b Hb. apply Ha. apply filter_In in Hb. tauto.
Qed.

Lemma distinct_on_snoc (on : list string) (l : list row) (r : row) :
  distinct_on on l -> (forall a, In a l -> same_key on a r = false) ->
  distinct_on on (l ++ [r]).
Proof.
  induction l as [|a l IH]; cbn; intros Hl Hr.
  - split; [intros b []|exact I].
  - destruct Hl as [Ha Hl]. split.
    + intros b Hb. apply in_app_or in Hb as [Hb|[<-|[]]]; auto.
    + apply IH; auto.
Qed.

(** A row that INSERT accepts collides with no row on any unique index. *)
Lemma accepted_row_is_new (s : store) (t : table) (r : row)
    (u : string * list string) :
  insert_error s t r = None ->
  In u (unique_constraints (Schema.decl t)) ->
  forall a, In a (rows s t) -> same_key (snd u) a r = false.
Proof.
  intros H Hu a Ha. unfold insert_error in H.
  destruct (type_error t r); [discriminate|].
  destruct (not_null_error t r); [discriminate|].
  destruct (unique_error (rows s) t r) eqn:Hun; [discriminate|].
  pose proof (find_map_none _ _ Hun u Hu) as Hn. cbn beta in Hn.
  destruct (existsb (same_key (snd u) r) (rows s t)) eqn:Hex;
    [discriminate|].
  rewrite same_key_sym. rewrite existsb_false_iff in Hex. auto.
Qed.

Lemma insert_uniques_hold (s : store) (t : table) (now : Z) (vals : row) :
  uniques_hold (rows s) -> uniques_hold (rows (fst (insert s t now vals))).
Proof.
  intros Hs t' u Hu. unfold insert.
  destruct (insert_error s t _) eqn:E; cbn [fst rows]; rewrite rows_draw;
    [now apply Hs|].
  destruct (table_eq_dec t t') as [<-|Hne].
  - rewrite upd_same. apply distinct_on_snoc; [now apply Hs|].
    now apply (accepted_row_is_new s t).
  - rewrite upd_other by exact Hne. now apply Hs.
Qed.

Lemma delete_uniques_hold (s : store) (t : table) (doomed : row -> bool) :
  uniques_hold (rows s) -> uniques_hold (rows (fst (delete s t doomed))).
Proof.
  intros Hs. unfold delete.
  destruct (delete_rows depth (rows s) t doomed) as [st'|e] eqn:E;
    [|exact Hs].
  destruct (no_action_error (rows s) st'); [exact Hs|].
  intros t' u Hu. cbn [fst rows].
  destruct (delete_rows_filter _ _ _ _ _ E t') as [keep ->].
  apply distinct_on_filter. now apply Hs.
Qed.

Lemma reachable_uniques_hold (s : store) :
  reachable s -> uniques_hold (rows s).
Proof.
  induction 1.
  - intros t u _. exact I.
  - now apply insert_uniques_hold.
  - now apply delete_uniques_hold.
Qed.

Lemma distinct_on_pair (on : list string) (l : list row) (a b : row) :
  distinct_on on l -> In a l -> In b l -> same_key on a b = true -> a = b.
Proof.
  induction l as [|x l IH]; cbn; intros Hl Ha Hb Hs; [destruct Ha|].
  destruct Hl as [Hx Hl].
  destruct Ha as [<-|Ha], Hb as [<-|Hb]; auto.
  - rewrite (Hx b Hb) in Hs. discriminate.
  - rewrite same_key_sym, (Hx a Ha) in Hs. discriminate.
Qed.

(** ** Column checks *)

Lemma insert_rows_well_typed (s : store) (t : table) (now : Z) (vals : row) :
  rows_well_typed (rows s) ->
  rows_well_typed (rows (fst (insert s t now vals))).
Proof.
  intros Hs t' r Hr. unfold insert in Hr.
  destruct (insert_error s t _) eqn:E; cbn [fst rows] in Hr;
    rewrite rows_draw in Hr; [now apply Hs|].
  destruct (table_eq_dec t t') as [<-|Hne].
  - rewrite upd_same in Hr. apply in_app_or in Hr as [Hr|[<-|[]]];
      [now apply Hs|].
    unfold insert_error in E. unfold well_typed.
    destruct (type_error t _); [discriminate|].
    destruct (not_null_error t _); [discriminate|]. auto.
  - rewrite upd_other in Hr by exact Hne. now apply Hs.
Qed.

Lemma delete_rows_well_typed (s : store) (t : table) (doomed : row -> bool) :
  rows_well_typed (rows s) ->
  rows_well_typed (rows (fst (delete s t doomed))).
Proof.
  intros Hs. unfold delete.
  destruct (delete_rows depth (rows s) t doomed) as [st'|e] eqn:E;
    [|exact Hs].
  destruct (no_action_error (rows s) st'); [exact Hs|].
  intros t' r Hr. cbn [fst rows] in Hr.
  apply (delete_rows_subset _ _ _ _ _ E) in Hr. now apply Hs.
Qed.

Lemma reachable_rows_well_typed (s : store) :
  reachable s -> rows_well_typed (rows s).
Proof.
  induction 1.
  - intros t r [].
  - now apply insert_rows_well_typed.
  - now apply delete_rows_well_typed.
Qed.

Lemma stored_enum (t : table) (r : row) (c : column) (name : string)
    (labels : list string) :
  well_typed t r -> In c (tbl_columns (Schema.decl t)) ->
  col_ty c = pgEnum name labels -> col_notNull c = true ->
  exists l, get (col_key c) r = VText l /\ In l labels.
Proof.
  intros [Hty Hnn] Hc Hen Hn.
  pose proof (find_map_none _ _ Hty c Hc) as H1. cbn beta in H1.
  pose proof (find_map_none _ _ Hnn c Hc) as H2. cbn beta in H2.
  rewrite Hen in H1. rewrite Hn in H2. cbn in H2.
  destruct (get (col_key c) r) as [|l| | | |]; try discriminate.
  exists l. split; [reflexivity|]. cbn in H1.
  destruct (existsb (String.eqb l) labels) eqn:Hex; [|discriminate].
  apply existsb_exists in Hex as (x & Hx & He). apply String.eqb_eq in He.
  now subst.
Qed.

Lemma catalog_reachable : reachable catalog.
Proof. apply populate_reachable. apply reach_empty. Qed.

Lemma enrolled_reachable : reachable enrolled.
Proof. apply populate_reachable. exact campus_reachable. Qed.

Lemma busy_reachable : reachable busy.
Proof. apply populate_reachable. exact enrolled_reachable. Qed.

(** X1.  Referential integrity.  In every store that INSERT and DELETE
    statements can produce, each of the seven foreign keys of the schema
    (session.userId, account.userId, subjects.departmentId,
    classes.subjectId, classes.teacherId, enrollments.studentId,
    enrollments.classId) of each row is not NULL and is the id of a row of
    the referenced table. *)
Theorem no_dangling_reference (s : store) (k : fk) (c : row) :
  reachable s -> In k foreign_keys -> In c (rows s (fk_child k)) ->
  exists p, In p (rows s (ref_table (fk_ref k)))
            /\ get (fk_col k) c = get (ref_column (fk_ref k)) p
            /\ get (fk_col k) c <> VNull.
Proof.
  intros Hs Hk Hc. apply refers_iff.
  exact (reachable_ref_integrity s Hs k c Hk Hc).
Qed.

Lemma no_dangling_reference_witness :
  reachable busy
  /\ In fk_enrollments_class foreign_keys
  /\ In enrollment_row (rows busy enrollments)
  /\ exists p, In p (rows busy classes)
               /\ get "classId" enrollment_row = get "id" p
               /\ get "classId" enrollment_row <> VNull.
Proof.
  assert (Hk : In fk_enrollments_class foreign_keys)
    by (rewrite foreign_keys_eq; cbn; tauto).
  assert (Hc : In enrollment_row (rows busy enrollments))
    by (vm_compute; left; reflexivity).
  split; [exact busy_reachable|]. split; [exact Hk|]. split; [exact Hc|].
  exact (no_dangling_reference busy fk_enrollments_class enrollment_row
           busy_reachable Hk Hc).
Defined.

(** X2.  Unique indexes.  In every store that INSERT and DELETE statements
    can produce, two rows of a table that agree, with no NULL, on the
    columns of one of its unique indexes (a primary key,
    session_token_unique, account_provider_account_unique,
    departments_code_unique, subjects_code_unique,
    classes_invite_code_unique) are one and the same row. *)
Theorem unique_indexes_hold
    (s : store) (t : table) (u : string * list string) (a b : row) :
  reachable s ->
  In u (unique_constraints (Schema.decl t)) ->
  In a (rows s t) -> In b (rows s t) ->
  same_key (snd u) a b = true -> a = b.
Proof.
  intros Hs Hu Ha Hb Hk.
  apply (distinct_on_pair (snd u) (rows s t)); auto.
  now apply reachable_uniques_hold.
Qed.

Lemma unique_indexes_hold_witness :
  reachable busy
  /\ In ("account_provider_account_unique", ["providerId"; "accountId"])
        (unique_constraints (Schema.decl account))
  /\ In account_row (rows busy account)
  /\ same_key ["providerId"; "accountId"] account_row account_row = true
  /\ account_row = account_row.
Proof.
  assert (Hu : In ("account_provider_account_unique",
                   ["providerId"; "accountId"])
                  (unique_constraints (Schema.decl account)))
    by (right; left; reflexivity).
  assert (Ha : In account_row (rows busy account))
    by (vm_compute; left; reflexivity).
  split; [exact busy_reachable|]. split; [exact Hu|]. split; [exact Ha|].
  split; [reflexivity|].
  exact (unique_indexes_hold busy account _ account_row account_row
           busy_reachable Hu Ha Ha eq_refl).
Defined.

(** X3.  Column checks.  In every store that INSERT and DELETE statements
    can produce, every row passes the column checks of its table: each
    value is of the type of its column (a varchar within its length,
    counted in characters, an integer within 32 bits, an enum label of its
    enum) and no NOT NULL or primary-key column is NULL. *)
Theorem stored_rows_well_typed (s : store) (t : table) (r : row) :
  reachable s -> In r (rows s t) -> well_typed t r.
Proof.
  intros Hs Hr. exact (reachable_rows_well_typed s Hs t r Hr).
Qed.

Lemma stored_rows_well_typed_witness :
  reachable busy /\ In class_row (rows busy classes)
  /\ well_typed classes class_row.
Proof.
  assert (Hr : In class_row (rows busy classes))
    by (vm_compute; left; reflexivity).
  split; [exact busy_reachable|]. split; [exact Hr|].
  exact (stored_rows_well_typed busy classes class_row busy_reachable Hr).
Defined.

(** X4.  Enums.  In every store that INSERT and DELETE statements can
    produce, the role of every user is student, teacher or admin
    ([roleEnum]) and the status of every class is active, inactive or
    archived ([classStatusEnum]). *)
Theorem stored_roles_and_statuses (s : store) :
  reachable s ->
  (forall u, In u (rows s user) ->
     get "role" u = VText "student" \/ get "role" u = VText "teacher"
     \/ get "role" u = VText "admin")
  /\
  (forall c, In c (rows s classes) ->
     get "status" c = VText "active" \/ get "status" c = VText "inactive"
     \/ get "status" c = VText "archived").
Proof.
  intro Hs. pose proof (reachable_rows_well_typed s Hs) as Hw. split.
  - intros u Hu.
    destruct (stored_enum user u
                (Schema.roleEnum "role" "role" |> notNull
                   |> default (VText "student"))
                "role" ["student"; "teacher"; "admin"])
      as (l & Hl & Hin); auto.
    + cbn. tauto.
    + cbn in Hl. rewrite Hl. cbn in Hin.
      destruct Hin as [<-|[<-|[<-|[]]]]; auto.
  - intros c Hc.
    destruct (stored_enum classes c
                (Schema.classStatusEnum "status" "status" |> notNull
                   |> default (VText "active"))
                "class_status" ["active"; "inactive"; "archived"])
      as (l & Hl & Hin); auto.
    + cbn. tauto.
    + cbn in Hl. rewrite Hl. cbn in Hin.
      destruct Hin as [<-|[<-|[<-|[]]]]; auto.
Qed.


Lemma stored_roles_and_statuses_witness :
  reachable busy
  /\ In student_row (rows busy user) /\ In class_row (rows busy classes)
  /\ (get "role" student_row = VText "student"
      \/ get "role" student_row = VText "teacher"
      \/ get "role" student_row = VText "admin")
  /\ (get "status" class_row = VText "active"
      \/ get "status" class_row = VText "inactive"
      \/ get "status" class_row = VText "archived").
Proof.
  assert (Hu : In student_row (rows busy user))
    by (vm_compute; right; left; reflexivity).
  assert (Hc : In class_row (rows busy classes))
    by (vm_compute; left; reflexivity).
  destruct (stored_roles_and_statuses busy busy_reachable) as [H1 H2].
  split; [exact busy_reachable|]. split; [exact Hu|]. split; [exact Hc|].
  split; [exact (H1 student_row Hu)|exact (H2 class_row Hc)].
Defined.

End StoreInvariants.

(* ================================================================== *)
(** * More on inserts *)
(* ================================================================== *)

Module InsertFacts.
Import Engine Props Invariants EngineFacts StoreInvariants.

Lemma find_map_first {A B : Type} (f : A -> option B) (l : list A) (a : A) :
  In a l -> f a <> None ->
  exists a' b, In a' l /\ f a' = Some b /\ find_map f l = Some b.
Proof.
  induction l as [|x l IH]; intros Ha Hf; [destruct Ha|]. cbn.
  destruct (f x) as [b|] eqn:E.
  - exists x, b. auto.
  - destruct Ha as [<-|Ha]; [congruence|].
    destruct (IH Ha Hf) as (a' & b & Ha' & Hb & Hfm). exists a', b. auto.
Qed.

(** Every table has the primary key column id. *)
Lemma id_column (t : table) :
  exists c, In c (tbl_columns (Schema.decl t))
            /\ col_key c = "id" /\ col_primaryKey c = true.
Proof.
  destruct t; eexists; (split; [left; reflexivity|split; reflexivity]).
Qed.

Lemma pkey_constraint (t : table) :
  exists n, In (n, ["id"]) (unique_constraints (Schema.decl t)).
Proof.
  exists (tbl_name (Schema.decl t) ++ "_pkey").
  destruct t; vm_compute; left; reflexivity.
Qed.

Lemma accepted_id_not_null (s : store) (t : table) (r : row) :
  insert_error s t r = None -> get "id" r <> VNull.
Proof.
  unfold insert_error. intro H.
  destruct (type_error t r); [discriminate|].
  destruct (not_null_error t r) eqn:Hnn; [discriminate|].
  destruct (id_column t) as (c & Hc & Hk & Hp).
  pose proof (find_map_none _ _ Hnn c Hc) as Hn. cbn beta in Hn.
  rewrite Hk, Hp, orb_true_r in Hn. cbn in Hn.
  intro E. rewrite E in Hn. discriminate.
Qed.

Lemma filter_none {A : Type} (f : A -> bool) (l : list A) :
  (forall x, In x l -> f x = false) -> filter f l = [].
Proof.
  induction l as [|a l IH]; cbn; intro H; [reflexivity|].
  rewrite H by now left. apply IH. intros x Hx. apply H. now right.
Qed.

Lemma filter_every {A : Type} (f : A -> bool) (l : list A) :
  (forall x, In x l -> f x = true) -> filter f l = l.
Proof.
  induction l as [|a l IH]; cbn; intro H; [reflexivity|].
  rewrite H by now left. f_equal. apply IH. intros x Hx. apply H. now right.
Qed.

Lemma insert_ok_rows (s s' : store) (t : table) (now : Z) (vals r : row) :
  insert s t now vals = (s', Ok r) ->
  insert_error s t r = None
  /\ r = build_row t vals (seq s t) now
  /\ rows s' t = (rows s t ++ [r])%list
  /\ (forall t', t' <> t -> rows s' t' = rows s t').
Proof.
  unfold insert. destruct (insert_error s t _) eqn:E; [discriminate|].
  intros [= <- <-]. split; [exact E|]. split; [reflexivity|].
  cbn [rows]. rewrite rows_draw. split.
  - apply upd_same.
  - intros t' Hne. apply upd_other. congruence.
Qed.

(** X8.  Insert, then select.  After a successful insert of values of the
    insert type into any table,
    selecting by the id of the returned row finds that row and no other,
    and no other table has changed. *)
Theorem inserted_row_is_found
    (s s' : store) (t : table) (now : Z) (vals r : row) :
  insertable t vals = true ->
  insert s t now vals = (s', Ok r) ->
  filter (where_eq "id" (get "id" r)) (rows s' t) = [r]
  /\ forall t', t' <> t -> rows s' t' = rows s t'.
Proof.
  intros _ H. destruct (insert_ok_rows _ _ _ _ _ _ H) as (E & _ & Hr & Ho).
  split; [|exact Ho]. rewrite Hr, filter_app. cbn [filter].
  replace (where_eq "id" (get "id" r) r) with true.
  - rewrite filter_none; [reflexivity|]. intros a Ha.
    destruct (pkey_constraint t) as [n Hn].
    pose proof (accepted_row_is_new s t r _ E Hn a Ha) as Hk.
    unfold same_key in Hk. cbn in Hk. rewrite andb_true_r in Hk. exact Hk.
  - symmetry. apply where_eq_true. split; [reflexivity|].
    exact (accepted_id_not_null s t r E).
Qed.

Lemma inserted_row_is_found_witness :
  insertable classes new_class = true
  /\ insert catalog classes 0 new_class = (campus, Ok class_row)
  /\ filter (where_eq "id" (get "id" class_row)) (rows campus classes)
     = [class_row]
  /\ forall t', t' <> classes -> rows campus t' = rows catalog t'.
Proof.
  assert (H : insert catalog classes 0 new_class = (campus, Ok class_row))
    by (vm_compute; reflexivity).
  split; [reflexivity|]. split; [exact H|].
  exact (inserted_row_is_found catalog campus classes 0 new_class class_row
           eq_refl H).
Defined.

(** ** Identity values *)

Lemma insert_seq_le (s : store) (t t' : table) (now : Z) (vals : row) :
  seq s t' <= seq (fst (insert s t now vals)) t'.
Proof.
  unfold insert. destruct (insert_error s t _); cbn [fst seq];
    apply seq_draw_le.
Qed.

Lemma delete_seq (s : store) (t : table) (doomed : row -> bool) :
  seq (fst (delete s t doomed)) = seq s.
Proof.
  unfold delete. destruct (delete_rows _ _ _ _); [|reflexivity].
  destruct (no_action_error _ _); reflexivity.
Qed.

Lemma steps_seq_le (s s' : store) (t : table) :
  steps s s' -> seq s t <= seq s' t.
Proof.
  induction 1; [lia| |].
  - pose proof (insert_seq_le s' t0 t now vals). lia.
  - rewrite delete_seq. exact IHsteps.
Qed.

(** X5.  Identity values are never reused.  Of two rows inserted into the
    same table with an identity column, the later one has the larger id,
    whatever statements (deletes included) ran in between. *)
Theorem identity_never_reused
    (s s1 s2 s3 : store) (t : table) (now now' : Z) (vals vals' r1 r2 : row) :
  has_identity t = true ->
  insertable t vals = true -> insertable t vals' = true ->
  insert s t now vals = (s1, Ok r1) ->
  steps s1 s2 ->
  insert s2 t now' vals' = (s3, Ok r2) ->
  exists a b, get "id" r1 = VInt a /\ get "id" r2 = VInt b /\ a < b.
Proof.
  intros Hid _ _ H1 Hst H2.
  destruct (insert_ok_rows _ _ _ _ _ _ H1) as (_ & -> & _ & _).
  destruct (insert_ok_rows _ _ _ _ _ _ H2) as (_ & -> & _ & _).
  exists (seq s t), (seq s2 t). rewrite !built_id by exact Hid.
  split; [reflexivity|]. split; [reflexivity|].
  pose proof (steps_seq_le s1 s2 t Hst) as Hle.
  assert (seq s1 t = seq s t + 1).
  { unfold insert in H1. destruct (insert_error s t _); [discriminate|].
    injection H1 as <-. cbn [seq]. now apply seq_draw_identity. }
  lia.
Qed.

Lemma identity_never_reused_witness :
  let s2 := fst (delete campus classes (where_eq "id" (VInt 1))) in
  rows s2 classes = []
  /\ exists s3 r2,
       insert s2 classes 3 new_class = (s3, Ok r2)
       /\ get "id" class_row = VInt 1 /\ get "id" r2 = VInt 2.
Proof.
  intro s2. split; [vm_compute; reflexivity|].
  assert (H1 : insert catalog classes 0 new_class = (campus, Ok class_row))
    by (vm_compute; reflexivity).
  assert (Hst : steps campus s2)
    by (apply steps_delete, steps_refl).
  assert (H2 : insert s2 classes 3 new_class
               = (fst (insert s2 classes 3 new_class),
                  Ok (build_row classes new_class 2 3)))
    by (vm_compute; reflexivity).
  exists (fst (insert s2 classes 3 new_class)),
         (build_row classes new_class 2 3).
  split; [exact H2|].
  destruct (identity_never_reused catalog campus s2 _ classes 0 3
              new_class new_class class_row _ eq_refl eq_refl eq_refl
              H1 Hst H2)
    as (a & b & Ha & Hb & Hlt).
  split; reflexivity.
Defined.

(** ** Rejections *)

(** X6.  Unique violations.  In every store, an insert whose row passes
    the column checks and agrees with an existing row on the columns of a
    unique index of the table fails with the violation of a unique index
    on which it collides, and the rows of the store are unchanged. *)
Theorem colliding_insert_rejected
    (s : store) (t : table) (now : Z) (vals x : row)
    (u : string * list string) :
  let r := build_row t vals (seq s t) now in
  insertable t vals = true ->
  well_typed t r ->
  In u (unique_constraints (Schema.decl t)) ->
  In x (rows s t) -> same_key (snd u) r x = true ->
  exists u',
    In u' (unique_constraints (Schema.decl t))
    /\ existsb (same_key (snd u') r) (rows s t) = true
    /\ insert s t now vals = (draw s t, Err (UniqueViolation (fst u')))
    /\ rows (draw s t) = rows s.
Proof.
  intros r _ [Hty Hnn] Hu Hx Hk.
  destruct (find_map_first
              (fun u => if existsb (same_key (snd u) r) (rows s t)
                        then Some (UniqueViolation (fst u)) else None)
              _ u Hu) as (u' & e & Hu' & He & Hfm).
  { replace (existsb (same_key (snd u) r) (rows s t)) with true;
      [discriminate|]. symmetry. apply existsb_exists. eauto. }
  destruct (existsb (same_key (snd u') r) (rows s t)) eqn:Hex;
    [|discriminate].
  injection He as <-. exists u'. split; [exact Hu'|]. split; [exact Hex|].
  split; [|apply rows_draw].
  unfold insert, insert_error. fold r. rewrite Hty, Hnn.
  unfold unique_error. rewrite Hfm. reflexivity.
Qed.

Lemma colliding_insert_rejected_witness :
  insertable account same_account = true
  /\ well_typed account (build_row account same_account (seq busy account) 9)
  /\ In account_row (rows busy account)
  /\ same_key ["providerId"; "accountId"]
       (build_row account same_account (seq busy account) 9) account_row
     = true
  /\ snd (insert busy account 9 same_account)
     = Err (UniqueViolation "account_provider_account_unique")
  /\ exists u' : string * list string,
       insert busy account 9 same_account
       = (draw busy account, Err (UniqueViolation (fst u')))
       /\ rows (draw busy account) = rows busy.
Proof.
  assert (Hw : well_typed account
                 (build_row account same_account (seq busy account) 9))
    by (split; vm_compute; reflexivity).
  assert (Hx : In account_row (rows busy account))
    by (vm_compute; left; reflexivity).
  assert (Hk : same_key ["providerId"; "accountId"]
                 (build_row account same_account (seq busy account) 9)
                 account_row = true)
    by (vm_compute; reflexivity).
  split; [reflexivity|].
  split; [exact Hw|]. split; [exact Hx|]. split; [exact Hk|].
  split; [vm_compute; reflexivity|].
  destruct (colliding_insert_rejected busy account 9 same_account
              account_row
              ("account_provider_account_unique",
               ["providerId"; "accountId"])
              eq_refl Hw (or_intror (or_introl eq_refl)) Hx Hk)
    as (u' & _ & _ & Hi & Hr).
  exists u'. split; [exact Hi|exact Hr].
Defined.

(** X7.  Unknown references.  In every store, an insert whose row passes
    the column checks, collides on no unique index, and has a foreign key
    that names no row of the referenced table (a subject of an unknown
    department, a class of an unknown subject or teacher, an enrollment of
    an unknown student or class, a session or account of an unknown user)
    fails with the violation of such a foreign key, and the rows of the
    store are unchanged. *)
Theorem dangling_insert_rejected
    (s : store) (t : table) (now : Z) (vals : row) (k : fk) :
  let r := build_row t vals (seq s t) now in
  insertable t vals = true ->
  well_typed t r ->
  (forall u x, In u (unique_constraints (Schema.decl t)) ->
               In x (rows s t) -> same_key (snd u) r x = false) ->
  In k foreign_keys -> fk_child k = t ->
  refers k (rows s (ref_table (fk_ref k))) r = false ->
  exists k',
    In k' foreign_keys /\ fk_child k' = t
    /\ refers k' (rows s (ref_table (fk_ref k'))) r = false
    /\ insert s t now vals
       = (draw s t, Err (ForeignKeyViolation t (fk_col k')))
    /\ rows (draw s t) = rows s.
Proof.
  intros r _ [Hty Hnn] Hun Hk Ht Hr. subst t.
  destruct (fk_of_column k Hk) as (c & Hc & Href & Hkey).
  assert (Hnull : forall c', In c' (tbl_columns (Schema.decl (fk_child k))) ->
                    col_references c' <> None ->
                    is_null (get (col_key c') r) = false).
  { intros c' Hc' Hr'. pose proof (find_map_none _ _ Hnn c' Hc') as Hn.
    cbn beta in Hn.
    rewrite (fk_columns_not_null _ c' Hc' Hr') in Hn. cbn in Hn.
    destruct (is_null _); [discriminate|reflexivity]. }
  assert (Hu0 : unique_error (rows s) (fk_child k) r = None).
  { unfold unique_error. destruct (find_map _ _) eqn:Hfu; [|reflexivity].
    apply find_map_some in Hfu as (u & Hu & Hfu).
    rewrite existsb_false in Hfu; [discriminate|]. intros x Hx. auto. }
  set (f := fun c : column =>
              match col_references c with
              | None => None
              | Some ref =>
                  let v := get (col_key c) r in
                  if is_null v
                     || existsb (fun p => key_eqb v (get (ref_column ref) p))
                                (rows s (ref_table ref))
                  then None
                  else Some (ForeignKeyViolation (fk_child k) (col_key c))
              end).
  destruct (find_map_first f _ c Hc) as (c' & e & Hc' & He & Hfm).
  { unfold f. rewrite Href. cbn zeta. rewrite Hnull by (auto; congruence).
    cbn. rewrite Hkey. unfold refers in Hr. rewrite Hr. discriminate. }
  unfold f in He. destruct (col_references c') as [ref'|] eqn:Href';
    [|discriminate]. cbn zeta in He.
  rewrite Hnull in He by (auto; congruence). cbn in He.
  destruct (existsb _ _) eqn:Hex; [discriminate|]. injection He as <-.
  exists (mkFk (fk_child k) (col_key c') ref').
  split; [|split; [reflexivity|split; [exact Hex|split; [|apply rows_draw]]]].
  - unfold foreign_keys. apply in_flat_map. exists (fk_child k). split.
    + destruct (fk_child k); cbn; tauto.
    + unfold fks_of. apply in_flat_map. exists c'. split; [exact Hc'|].
      rewrite Href'. now left.
  - unfold insert, insert_error. fold r. rewrite Hty, Hnn.
    rewrite Hu0. unfold fk_error. fold f. rewrite Hfm. reflexivity.
Qed.

Lemma dangling_insert_rejected_witness :
  insertable subjects stray_subject = true
  /\ well_typed subjects
    (build_row subjects stray_subject (seq catalog subjects) 4)
  /\ refers fk_subjects_department (rows catalog departments)
       (build_row subjects stray_subject (seq catalog subjects) 4) = false
  /\ insert catalog subjects 4 stray_subject
     = (draw catalog subjects,
        Err (ForeignKeyViolation subjects "departmentId"))
  /\ rows (draw catalog subjects) = rows catalog.
Proof.
  assert (Hw : well_typed subjects
                 (build_row subjects stray_subject (seq catalog subjects) 4))
    by (split; vm_compute; reflexivity).
  assert (Hr : refers fk_subjects_department (rows catalog departments)
                 (build_row subjects stray_subject (seq catalog subjects) 4)
               = false)
    by (vm_compute; reflexivity).
  split; [reflexivity|]. split; [exact Hw|]. split; [exact Hr|].
  destruct (dangling_insert_rejected catalog subjects 4 stray_subject
              fk_subjects_department eq_refl Hw)
    as (k' & _ & _ & _ & Hi & Hrows).
  - intros u x Hu Hx. vm_compute in Hx. destruct Hx as [<-|[]].
    cbn in Hu. destruct Hu as [<-|[<-|[]]]; vm_compute; reflexivity.
  - rewrite foreign_keys_eq. cbn. tauto.
  - reflexivity.
  - exact Hr.
  - split; [vm_compute; reflexivity|exact Hrows].
Defined.

(** ** Defaults *)

(** X10.  Timestamps.  In every table, a row inserted at time [now]
    without createdAt and updatedAt has both set to [now]. *)
Theorem timestamps_default_to_now
    (s s' : store) (t : table) (now : Z) (vals r : row) :
  insertable t vals = true ->
  lookup "createdAt" vals = None -> lookup "updatedAt" vals = None ->
  insert s t now vals = (s', Ok r) ->
  get "createdAt" r = VTime now /\ get "updatedAt" r = VTime now.
Proof.
  intros _ Hc Hu H.
  destruct (insert_ok_rows _ _ _ _ _ _ H) as (_ & -> & _).
  destruct t; unfold build_row; cbn; rewrite Hc, Hu; split; reflexivity.
Qed.

Lemma timestamps_default_to_now_witness :
  insertable user new_student = true
  /\ lookup "createdAt" new_student = None
  /\ lookup "updatedAt" new_student = None
  /\ (exists s' r,
        insert empty user 42 new_student = (s', Ok r)
        /\ get "createdAt" r = VTime 42 /\ get "updatedAt" r = VTime 42).
Proof.
  split; [reflexivity|]. split; [reflexivity|]. split; [reflexivity|].
  assert (H : insert empty user 42 new_student
              = (fst (insert empty user 42 new_student),
                 Ok (build_row user new_student 1 42)))
    by (vm_compute; reflexivity).
  eexists _, _. split; [exact H|].
  exact (timestamps_default_to_now empty _ user 42 new_student _
           eq_refl eq_refl eq_refl H).
Defined.

(** X11.  A class inserted without a status has the status active. *)
Theorem class_status_defaults_to_active
    (s s' : store) (now : Z) (vals r : row) :
  insertable classes vals = true ->
  lookup "status" vals = None ->
  insert s classes now vals = (s', Ok r) ->
  get "status" r = VText "active".
Proof.
  intros _ Hs H. destruct (insert_ok_rows _ _ _ _ _ _ H) as (_ & -> & _).
  unfold build_row; cbn; rewrite Hs; reflexivity.
Qed.

Lemma class_status_defaults_to_active_witness :
  insertable classes new_class = true
  /\ lookup "status" new_class = None
  /\ insert catalog classes 0 new_class = (campus, Ok class_row)
  /\ get "status" class_row = VText "active".
Proof.
  assert (H : insert catalog classes 0 new_class = (campus, Ok class_row))
    by (vm_compute; reflexivity).
  split; [reflexivity|]. split; [reflexivity|]. split; [exact H|].
  exact (class_status_defaults_to_active catalog campus 0 new_class
           class_row eq_refl eq_refl H).
Defined.

End InsertFacts.

(* ================================================================== *)
(** * More on deletes *)
(* ================================================================== *)

Module DeleteFacts.
Import Engine Props Invariants EngineFacts Integrity StoreInvariants InsertFacts.

Lemma no_action_error_orphans (old new : table -> list row) :
  (forall k, In k foreign_keys -> onDelete (fk_ref k) = no_action ->
             orphaned old new k = false) ->
  no_action_error old new = None.
Proof.
  unfold no_action_error. induction foreign_keys as [|k ks IH]; intro H;
    [reflexivity|].
  cbn [find_map]. destruct (onDelete (fk_ref k)) eqn:Hact.
  - rewrite (H k) by (auto; now left). apply IH. intros k' Hk'. apply H. now right.
  - apply IH. intros k' Hk'. apply H. now right.
  - apply IH. intros k' Hk'. apply H. now right.
Qed.

(** A row that referenced a surviving parent still has it. *)
Lemma refers_survives (k : fk) (ps : list row) (doomed : row -> bool)
    (c : row) :
  refers k ps c = true ->
  refers k (filter doomed ps) c = false ->
  refers k (filter (fun r => negb (doomed r)) ps) c = true.
Proof.
  intros Ho Hv. apply refers_iff in Ho as (p & Hp & He & Hn).
  apply refers_iff. exists p. split; [|auto]. apply filter_In.
  split; [exact Hp|]. destruct (doomed p) eqn:Hd; [|reflexivity].
  exfalso. rewrite <- not_true_iff_false in Hv. apply Hv.
  apply refers_iff. exists p. split; [|auto]. apply filter_In. auto.
Qed.

Lemma delete_rows_unreferenced
    (st : table -> list row) (t : table) (doomed : row -> bool) :
  (forall k c, In k (referencing t) -> In c (st (fk_child k)) ->
               refers k (filter doomed (st t)) c = false) ->
  exists st',
    delete_rows depth st t doomed = Ok st'
    /\ st' t = filter (fun r => negb (doomed r)) (st t)
    /\ forall t', t' <> t -> st' t' = st t'.
Proof.
  intro H.
  assert (Hkeep : forall k, In k (referencing t) ->
            filter (fun c => negb (refers k (filter doomed (st t)) c))
                   (st (fk_child k)) = st (fk_child k)).
  { intros k Hk. apply filter_every. intros c Hc.
    now rewrite (H k c Hk Hc). }
  assert (Hnone : forall k, In k (referencing t) ->
            existsb (refers k (filter doomed (st t))) (st (fk_child k))
            = false).
  { intros k Hk. apply existsb_false. intros c Hc. now apply H. }
  destruct t.
  - (* user *)
    destruct (delete_rows_user st doomed)
      as (st' & Hd & Hu & He & Hs & Ha & Hv & Hde & Hsu & Hc).
    { apply (Hnone fk_classes_teacher). rewrite referencing_user.
      cbn. tauto. }
    exists st'. split; [exact Hd|]. split; [exact Hu|].
    intros t' Hne. destruct t'; try congruence.
    rewrite He. apply (Hkeep fk_enrollments_student).
    rewrite referencing_user. cbn. tauto.
  - eexists. split; [run_delete; reflexivity|]. split; [reflexivity|].
    intros t' Hne. destruct t'; congruence || reflexivity.
  - eexists. split; [run_delete; reflexivity|]. split; [reflexivity|].
    intros t' Hne. destruct t'; congruence || reflexivity.
  - eexists. split; [run_delete; reflexivity|]. split; [reflexivity|].
    intros t' Hne. destruct t'; congruence || reflexivity.
  - (* departments *)
    pose proof (Hnone fk_subjects_department) as Hx.
    rewrite referencing_departments in Hx. specialize (Hx (or_introl eq_refl)).
    cbn [fk_child fk_subjects_department] in Hx.
    eexists. split.
    + unfold depth. cbn [List.length all_tables]. step_delete.
      rewrite referencing_departments. step_delete. rewrite Hx.
      run_delete. reflexivity.
    + split; [reflexivity|].
      intros t' Hne. destruct t'; congruence || reflexivity.
  - (* subjects *)
    destruct (delete_rows_subjects st doomed)
      as (st' & Hd & Hsu & Hc & He & Hu & Hs & Ha & Hv & Hde).
    pose proof (Hkeep fk_classes_subject) as Hk.
    rewrite referencing_subjects in Hk. specialize (Hk (or_introl eq_refl)).
    exists st'. split; [exact Hd|]. split; [exact Hsu|].
    intros t' Hne. destruct t'; try congruence.
    + rewrite Hc. exact Hk.
    + rewrite He. apply filter_every. intros e _.
      rewrite filter_none; [reflexivity|]. intros c Hcin.
      apply (H fk_classes_subject c); [|exact Hcin].
      rewrite referencing_subjects. now left.
  - (* classes *)
    pose proof (Hkeep fk_enrollments_class) as Hk.
    rewrite referencing_classes in Hk. specialize (Hk (or_introl eq_refl)).
    eexists. split; [run_delete; reflexivity|]. split; [reflexivity|].
    intros t' Hne. destruct t'; try congruence; try reflexivity.
    cbn. exact Hk.
  - eexists. split; [run_delete; reflexivity|]. split; [reflexivity|].
    intros t' Hne. destruct t'; congruence || reflexivity.
Qed.

Lemma referencing_in (t : table) (k : fk) :
  In k foreign_keys -> ref_table (fk_ref k) = t -> In k (referencing t).
Proof.
  intros Hk <-. unfold referencing. apply filter_In. split; [exact Hk|].
  destruct (ref_table (fk_ref k)); reflexivity.
Qed.

(** No table references itself. *)
Lemma no_self_reference (k : fk) :
  In k foreign_keys -> fk_child k <> ref_table (fk_ref k).
Proof.
  rewrite foreign_keys_eq.
  intros [<-|[<-|[<-|[<-|[<-|[<-|[<-|[]]]]]]]]; discriminate.
Qed.

Lemma delete_unreferenced_rows
    (s : store) (t : table) (doomed : row -> bool) :
  (forall k c, In k foreign_keys -> ref_table (fk_ref k) = t ->
               In c (rows s (fk_child k)) ->
               refers k (filter doomed (rows s t)) c = false) ->
  exists s',
    delete s t doomed = (s', Ok (filter doomed (rows s t)))
    /\ rows s' t = filter (fun r => negb (doomed r)) (rows s t)
    /\ (forall t', t' <> t -> rows s' t' = rows s t')
    /\ seq s' = seq s.
Proof.
  intro H.
  destruct (delete_rows_unreferenced (rows s) t doomed)
    as (st' & Hd & Ht & Ho).
  { intros k c Hk Hc. unfold referencing in Hk.
    apply filter_In in Hk as [Hk Ht].
    apply (H k c Hk); [|exact Hc].
    destruct (ref_table (fk_ref k)), t; try discriminate; reflexivity. }
  exists (mkStore st' (seq s)). unfold delete. rewrite Hd.
  rewrite no_action_error_orphans; [auto|].
  intros k Hk Hact. unfold orphaned. apply existsb_false. intros c Hc.
  destruct (refers k (rows s (ref_table (fk_ref k))) c) eqn:Hold;
    [|reflexivity].
  cbn. apply negb_false_iff.
  destruct (table_eq_dec (ref_table (fk_ref k)) t) as [Ep|Np].
  - assert (Nc : fk_child k <> t).
    { rewrite <- Ep. now apply no_self_reference. }
    rewrite (Ho _ Nc) in Hc.
    rewrite Ep, Ht. rewrite Ep in Hold. apply refers_survives; [exact Hold|].
    now apply (H k c).
  - rewrite (Ho _ Np). exact Hold.
Qed.

(** X12.  Deleting rows that nothing references.  In every store and for
    every table, a delete whose selected rows are referenced by no row
    succeeds, returns the selected rows, removes them and nothing else, and
    leaves the sequences as they were. *)
Theorem delete_unreferenced
    (s : store) (t : table) (doomed : row -> bool) :
  (forall k c, In k foreign_keys -> ref_table (fk_ref k) = t ->
               In c (rows s (fk_child k)) ->
               refers k (filter doomed (rows s t)) c = false) ->
  exists s',
    delete s t doomed = (s', Ok (filter doomed (rows s t)))
    /\ rows s' t = filter (fun r => negb (doomed r)) (rows s t)
    /\ (forall t', t' <> t -> rows s' t' = rows s t')
    /\ seq s' = seq s.
Proof. exact (delete_unreferenced_rows s t doomed). Qed.

Lemma delete_unreferenced_witness :
  rows campus enrollments = []
  /\ exists s',
       delete campus classes (where_eq "id" (VInt 1)) = (s', Ok [class_row])
       /\ rows s' classes = []
       /\ (forall t', t' <> classes -> rows s' t' = rows campus t').
Proof.
  assert (He : rows campus enrollments = []) by (vm_compute; reflexivity).
  split; [exact He|].
  destruct (delete_unreferenced campus classes (where_eq "id" (VInt 1)))
    as (s' & Hd & Ht & Ho & _).
  - intros k c Hk Hr Hc. exfalso.
    pose proof (referencing_in classes k Hk Hr) as Hin.
    rewrite referencing_classes in Hin. destruct Hin as [<-|[]].
    cbn [fk_child fk_enrollments_class] in Hc. rewrite He in Hc.
    destruct Hc.
  - exists s'. split; [exact Hd|]. split; [|exact Ho].
    rewrite Ht. vm_compute. reflexivity.
Defined.

(** X13.  Deletes that cannot fail.  No foreign key points at session,
    account, verification or enrollments: in every store a delete on one of
    these tables succeeds, returns the selected rows, removes them and
    nothing else. *)
Theorem leaf_delete_always_succeeds
    (s : store) (t : table) (doomed : row -> bool) :
  t = session \/ t = account \/ t = verification \/ t = enrollments ->
  exists s',
    delete s t doomed = (s', Ok (filter doomed (rows s t)))
    /\ rows s' t = filter (fun r => negb (doomed r)) (rows s t)
    /\ (forall t', t' <> t -> rows s' t' = rows s t')
    /\ seq s' = seq s.
Proof.
  intro Ht. apply delete_unreferenced_rows. intros k c Hk Hr. exfalso.
  revert Hk Hr. rewrite foreign_keys_eq.
  intros [<-|[<-|[<-|[<-|[<-|[<-|[<-|[]]]]]]]]; cbn; intros <-;
    destruct Ht as [?|[?|[?|?]]]; discriminate.
Qed.

Lemma leaf_delete_always_succeeds_witness :
  exists s',
    delete busy enrollments (where_eq "studentId" (VText "s1"))
    = (s', Ok [enrollment_row])
    /\ rows s' enrollments = []
    /\ (forall t', t' <> enrollments -> rows s' t' = rows busy t').
Proof.
  destruct (leaf_delete_always_succeeds busy enrollments
              (where_eq "studentId" (VText "s1")))
    as (s' & Hd & Ht & Ho & _).
  - right. right. right. reflexivity.
  - exists s'. split; [exact Hd|]. split; [|exact Ho].
    rewrite Ht. vm_compute. reflexivity.
Defined.

Lemma refers_nothing (k : fk) (c : row) : refers k [] c = false.
Proof. reflexivity. Qed.

Lemma delete_nothing_rows (s : store) (t : table) (doomed : row -> bool) :
  filter doomed (rows s t) = [] ->
  exists s',
    delete s t doomed = (s', Ok [])
    /\ (forall t', rows s' t' = rows s t') /\ seq s' = seq s.
Proof.
  intro He.
  destruct (delete_unreferenced_rows s t doomed) as (s' & Hd & Ht & Ho & Hq).
  { intros k c _ _ _. rewrite He. reflexivity. }
  exists s'. rewrite He in Hd. split; [exact Hd|]. split; [|exact Hq].
  intro t'. destruct (table_eq_dec t' t) as [->|Hne]; [|auto].
  rewrite Ht. apply filter_every. intros x Hx. apply negb_true_iff.
  destruct (doomed x) eqn:Hdx; [|reflexivity].
  assert (In x (filter doomed (rows s t))) by (apply filter_In; auto).
  rewrite He in H. destruct H.
Qed.

(** X14.  A delete that selects no row.  In every store and for every
    table, a delete whose condition holds of no row of the table succeeds,
    returns no row, and leaves every table and every sequence as it was. *)
Theorem delete_nothing (s : store) (t : table) (doomed : row -> bool) :
  (forall x, In x (rows s t) -> doomed x = false) ->
  exists s',
    delete s t doomed = (s', Ok [])
    /\ (forall t', rows s' t' = rows s t') /\ seq s' = seq s.
Proof.
  intro H. apply delete_nothing_rows. now apply filter_none.
Qed.

Lemma delete_nothing_witness :
  (forall x, In x (rows campus departments) ->
             where_eq "id" (VInt 99) x = false)
  /\ exists s',
       delete campus departments (where_eq "id" (VInt 99)) = (s', Ok [])
       /\ (forall t', rows s' t' = rows campus t').
Proof.
  assert (H : forall x, In x (rows campus departments) ->
                        where_eq "id" (VInt 99) x = false).
  { intros x Hx. vm_compute in Hx. destruct Hx as [<-|[]]. reflexivity. }
  split; [exact H|].
  destruct (delete_nothing campus departments (where_eq "id" (VInt 99)) H)
    as (s' & Hd & Hr & _).
  exists s'. split; [exact Hd|exact Hr].
Defined.

(** X15.  Deleting twice.  After a successful delete no row of the table
    satisfies the condition any more, and the same delete run again
    succeeds, returns no row and changes nothing. *)
Theorem delete_twice (s s1 : store) (t : table) (doomed : row -> bool)
    (deleted : list row) :
  delete s t doomed = (s1, Ok deleted) ->
  (forall x, In x (rows s1 t) -> doomed x = false)
  /\ exists s2,
       delete s1 t doomed = (s2, Ok [])
       /\ (forall t', rows s2 t' = rows s1 t') /\ seq s2 = seq s1.
Proof.
  intro H. unfold delete in H.
  destruct (delete_rows depth (rows s) t doomed) as [st'|e] eqn:E;
    [|discriminate].
  destruct (no_action_error (rows s) st'); [discriminate|].
  injection H as <- _.
  destruct (delete_rows_closed _ _ _ _ _ E) as (_ & _ & Hgone).
  split; [exact Hgone|].
  apply delete_nothing_rows. apply filter_none. exact Hgone.
Qed.

Lemma delete_twice_witness :
  let s1 := fst (delete enrolled classes (where_eq "id" (VInt 1))) in
  delete enrolled classes (where_eq "id" (VInt 1)) = (s1, Ok [class_row])
  /\ exists s2,
       delete s1 classes (where_eq "id" (VInt 1)) = (s2, Ok [])
       /\ (forall t', rows s2 t' = rows s1 t').
Proof.
  intro s1.
  assert (H : delete enrolled classes (where_eq "id" (VInt 1))
              = (s1, Ok [class_row]))
    by (vm_compute; reflexivity).
  split; [exact H|].
  destruct (delete_twice enrolled s1 classes (where_eq "id" (VInt 1))
              [class_row] H)
    as (_ & s2 & Hd & Hr & _).
  exists s2. split; [exact Hd|exact Hr].
Defined.

(** X16.  The only deletes that fail.  In every store, a delete that fails
    leaves the store as it was, and is either a delete on user, refused on
    classes.teacherId, session.userId or account.userId, or a delete on
    departments, refused on subjects.departmentId.  Deletes on session,
    account, verification, subjects, classes and enrollments never fail. *)
Theorem delete_fails_only_on_restrict
    (s s' : store) (t : table) (doomed : row -> bool) (e : error) :
  delete s t doomed = (s', Err e) ->
  s' = s
  /\ ((t = user
       /\ (e = ForeignKeyViolation classes "teacherId"
           \/ e = ForeignKeyViolation session "userId"
           \/ e = ForeignKeyViolation account "userId"))
      \/ (t = departments
          /\ e = ForeignKeyViolation subjects "departmentId")).
Proof.
  intro H. split; [exact (proj1 (delete_error s s' t doomed e H))|].
  revert H. unfold delete.
  destruct t;
    try (run_delete; rewrite no_action_error_none by reflexivity;
         discriminate); intro H.
  - (* user *)
    left. split; [reflexivity|]. revert H. run_delete.
    destruct (existsb _ (rows s classes)).
    + intros [= _ <-]. auto.
    + run_delete.
      match goal with
      | |- context [no_action_error ?o ?n] =>
          destruct (no_action_error o n) as [e1|] eqn:N
      end; [|discriminate].
      intros [= _ <-]. apply find_map_some in N as (k & Hk & N).
      rewrite foreign_keys_eq in Hk.
      destruct Hk as [<-|[<-|[<-|[<-|[<-|[<-|[<-|[]]]]]]]];
        cbn [onDelete fk_ref fk_session_user fk_account_user
             fk_subjects_department fk_classes_subject fk_classes_teacher
             fk_enrollments_student fk_enrollments_class fk_child fk_col] in N;
        try discriminate;
        destruct (orphaned _ _ _); try discriminate;
        injection N as <-; auto.
  - (* departments *)
    right. split; [reflexivity|]. revert H. run_delete.
    destruct (existsb _ (rows s subjects)).
    + intros [= _ <-]. reflexivity.
    + run_delete. rewrite no_action_error_none by reflexivity. discriminate.
Qed.

Lemma delete_fails_only_on_restrict_witness :
  delete enrolled user (where_eq "id" (VText "t1"))
  = (enrolled, Err (ForeignKeyViolation classes "teacherId"))
  /\ (user = user
      /\ (ForeignKeyViolation classes "teacherId"
          = ForeignKeyViolation classes "teacherId"
          \/ ForeignKeyViolation classes "teacherId"
             = ForeignKeyViolation session "userId"
          \/ ForeignKeyViolation classes "teacherId"
             = ForeignKeyViolation account "userId")
      \/ (user = departments
          /\ ForeignKeyViolation classes "teacherId"
             = ForeignKeyViolation subjects "departmentId")).
Proof.
  assert (H : delete enrolled user (where_eq "id" (VText "t1"))
              = (enrolled, Err (ForeignKeyViolation classes "teacherId")))
    by (vm_compute; reflexivity).
  split; [exact H|].
  exact (proj2 (delete_fails_only_on_restrict enrolled enrolled user
                  (where_eq "id" (VText "t1")) _ H)).
Defined.

(** X17.  A delete only removes rows.  For every store, table and
    condition, failed or not, each table after the delete is the table
    before it with some rows filtered out, in the same order: no row is
    added or changed; and no sequence moves. *)
Theorem delete_only_removes
    (s : store) (t : table) (doomed : row -> bool) (t' : table) :
  (exists keep,
     rows (fst (delete s t doomed)) t' = filter keep (rows s t'))
  /\ seq (fst (delete s t doomed)) = seq s.
Proof.
  split; [|apply delete_seq]. unfold delete.
  destruct (delete_rows depth (rows s) t doomed) as [st'|e] eqn:E.
  - destruct (no_action_error (rows s) st'); cbn [fst rows].
    + exists (fun _ => true). symmetry. apply filter_all.
    + exact (delete_rows_filter _ _ _ _ _ E t').
  - exists (fun _ => true). symmetry. apply filter_all.
Qed.

(** ** Classes *)

(** X18.  Deleting a class always succeeds.  In every store, the statement
    [db.delete(classes).where(eq(classes.id, k))] removes the class and
    every enrollment with this classId, and keeps every other row. *)
Theorem deleteClass_removes_enrollments (s : store) (k : Z) (C : row) :
  In C (rows s classes) -> get "id" C = VInt k ->
  exists s' deleted,
    delete s classes (where_eq "id" (VInt k)) = (s', Ok deleted) /\
    In C deleted /\
    (forall c, In c (rows s' classes) <->
               In c (rows s classes) /\ get "id" c <> VInt k) /\
    (forall e, In e (rows s' enrollments) <->
               In e (rows s enrollments) /\ get "classId" e <> VInt k) /\
    (forall t, t <> classes -> t <> enrollments -> rows s' t = rows s t) /\
    seq s' = seq s.
Proof.
  intros HC Hk.
  set (w := where_eq "id" (VInt k)).
  assert (Hvict : forall p, In p (filter w (rows s classes))
                    <-> In p (rows s classes) /\ get "id" p = VInt k).
  { intro p. unfold w. rewrite filter_In, where_eq_true.
    intuition discriminate. }
  assert (Hre : forall e,
             refers fk_enrollments_class (filter w (rows s classes)) e = true
             <-> get "classId" e = VInt k).
  { intro e. rewrite refers_iff. cbn. split.
    - intros (p & Hp & He & _). apply Hvict in Hp. destruct Hp. congruence.
    - intro He. exists C. rewrite Hvict, He, Hk. intuition discriminate. }
  eexists (mkStore _ (seq s)), (filter w (rows s classes)).
  split; [|split; [|split; [|split; [|split]]]].
  - unfold delete. run_delete. rewrite no_action_error_none by reflexivity.
    reflexivity.
  - apply Hvict. auto.
  - intro c. cbn. rewrite filter_In, negb_true_iff.
    rewrite <- not_true_iff_false. unfold w. rewrite where_eq_true.
    intuition discriminate.
  - intro e. cbn. rewrite filter_In, negb_true_iff.
    rewrite <- not_true_iff_false, Hre. tauto.
  - intros t H1 H2. cbn [rows]. destruct t; congruence || reflexivity.
  - reflexivity.
Qed.

Lemma deleteClass_removes_enrollments_witness :
  In class_row (rows busy classes)
  /\ rows busy enrollments <> []
  /\ exists s' deleted,
       delete busy classes (where_eq "id" (VInt 1)) = (s', Ok deleted)
       /\ In class_row deleted
       /\ (forall e, In e (rows s' enrollments) <->
                     In e (rows busy enrollments)
                     /\ get "classId" e <> VInt 1).
Proof.
  assert (HC : In class_row (rows busy classes))
    by (vm_compute; left; reflexivity).
  split; [exact HC|]. split; [vm_compute; discriminate|].
  destruct (deleteClass_removes_enrollments busy 1 class_row HC eq_refl)
    as (s' & deleted & Hq & Hin & _ & He & _).
  exists s', deleted. split; [exact Hq|]. split; [exact Hin|exact He].
Defined.

(** ** Insert, then delete *)

(** Every foreign key references the column id. *)
Lemma references_id (k : fk) :
  In k foreign_keys -> ref_column (fk_ref k) = "id".
Proof.
  rewrite foreign_keys_eq.
  intros [<-|[<-|[<-|[<-|[<-|[<-|[<-|[]]]]]]]]; reflexivity.
Qed.

Lemma selects_inserted (s : store) (t : table) (r : row) :
  insert_error s t r = None ->
  where_eq "id" (get "id" r) r = true
  /\ forall a, In a (rows s t) -> where_eq "id" (get "id" r) a = false.
Proof.
  intro E. split.
  - apply where_eq_true. split; [reflexivity|].
    exact (accepted_id_not_null s t r E).
  - intros a Ha. destruct (pkey_constraint t) as [n Hn].
    pose proof (accepted_row_is_new s t r _ E Hn a Ha) as Hk.
    unfold same_key in Hk. cbn in Hk. rewrite andb_true_r in Hk. exact Hk.
Qed.

(** X19.  Insert, then delete.  In every store that INSERT and DELETE
    statements can produce, deleting by id the row that an insert has just
    returned succeeds, returns that row alone, and brings every table back
    to what it was before the insert. *)
Theorem insert_then_delete
    (s s1 : store) (t : table) (now : Z) (vals r : row) :
  reachable s ->
  insertable t vals = true ->
  insert s t now vals = (s1, Ok r) ->
  exists s2,
    delete s1 t (where_eq "id" (get "id" r)) = (s2, Ok [r])
    /\ forall t', rows s2 t' = rows s t'.
Proof.
  intros Hs _ H.
  destruct (insert_ok_rows _ _ _ _ _ _ H) as (E & _ & Hr & Ho).
  destruct (selects_inserted s t r E) as [Hself Hold].
  pose proof (reachable_ref_integrity s Hs) as Hri.
  set (w := where_eq "id" (get "id" r)) in *.
  assert (Hv : filter w (rows s1 t) = [r]).
  { rewrite Hr, filter_app. cbn [filter]. rewrite Hself.
    now rewrite (filter_none w (rows s t) Hold). }
  destruct (delete_unreferenced_rows s1 t w) as (s2 & Hd & Ht & Hot & _).
  { intros k c Hk Hp Hc. rewrite Hv.
    apply not_true_iff_false. intro Hrf.
    apply refers_iff in Hrf as (p & [<-|[]] & He & Hn).
    assert (Nc : fk_child k <> t).
    { rewrite <- Hp. now apply no_self_reference. }
    rewrite (Ho _ Nc) in Hc.
    pose proof (Hri k c Hk Hc) as Hpar.
    apply refers_iff in Hpar as (q & Hq & Heq & _).
    rewrite Hp in Hq. rewrite (references_id k Hk) in *.
    pose proof (Hold q Hq) as Hw. unfold w in Hw.
    rewrite <- not_true_iff_false in Hw. apply Hw.
    apply where_eq_true. split; [congruence|].
    exact (accepted_id_not_null s t r E). }
  exists s2. rewrite Hv in Hd. split; [exact Hd|].
  intro t'. destruct (table_eq_dec t' t) as [->|Hne].
  - rewrite Ht, Hr, filter_app. cbn [filter]. rewrite Hself. cbn.
    rewrite app_nil_r. apply filter_every. intros a Ha.
    now rewrite (Hold a Ha).
  - rewrite (Hot _ Hne). now apply Ho.
Qed.

Lemma insert_then_delete_witness :
  reachable catalog
  /\ insertable classes new_class = true
  /\ insert catalog classes 0 new_class = (campus, Ok class_row)
  /\ exists s2,
       delete campus classes (where_eq "id" (get "id" class_row))
       = (s2, Ok [class_row])
       /\ forall t', rows s2 t' = rows catalog t'.
Proof.
  assert (H : insert catalog classes 0 new_class = (campus, Ok class_row))
    by (vm_compute; reflexivity).
  split; [exact catalog_reachable|]. split; [reflexivity|].
  split; [exact H|].
  exact (insert_then_delete catalog campus classes 0 new_class class_row
           catalog_reachable eq_refl H).
Defined.

End DeleteFacts.

(* ================================================================== *)
(** * More on the pipeline *)
(* ================================================================== *)

Module PipelineMore.
Import Express Props Invariants PipelineFacts.

Ltac walk :=
  unfold Index.handle, Index.app, IndexAuth.handle, IndexAuth.app;
  cbn [dispatch matches handler_of behave decode_fails].

Section Walk.

Variable b : handler -> request -> signal.

(** A handler is visited only through a layer that matches the request. *)
Lemma visited_through_layer (layers : list layer) (req : request)
    (h : handler) :
  In h (fst (dispatch b layers req)) ->
  exists l, In l layers /\ handler_of l = h /\ matches l req = true.
Proof.
  induction layers as [|l layers IH]; cbn [dispatch]; [intros []|].
  destruct (matches l req) eqn:Hm.
  - destruct (decode_fails l req); [intros []|].
    destruct (b (handler_of l) req).
    + destruct (dispatch b layers req) as [v o]. cbn [fst] in *.
      intros [<-|Hin].
      * exists l. split; [now left|auto].
      * destruct (IH Hin) as (l' & Hl' & H'). exists l'. split; [now right|auto].
    + intros [<-|[]]. exists l. split; [now left|auto].
    + intros [<-|[]]. exists l. split; [now left|auto].
  - intro Hin. destruct (IH Hin) as (l' & Hl' & H'). exists l'.
    split; [now right|auto].
Qed.

(** The request is answered, or failed, by a handler it visited. *)
Lemma outcome_of_visited (layers : list layer) (req : request)
    (h : handler) :
  snd (dispatch b layers req) = responded h
  \/ snd (dispatch b layers req) = failed h ->
  In h (fst (dispatch b layers req)).
Proof.
  induction layers as [|l layers IH]; cbn [dispatch].
  - intros [H|H]; discriminate.
  - destruct (matches l req); [|exact IH].
    destruct (decode_fails l req); [intros [H|H]; discriminate|].
    destruct (b (handler_of l) req).
    + destruct (dispatch b layers req) as [v o]. cbn [fst snd] in *.
      intro H. right. auto.
    + cbn. intros [[= <-]|[= <-]]; auto.
    + cbn. intros [[= <-]|[= <-]]; auto.
Qed.

Lemma dispatch_use (h : handler) (layers : list layer) (req : request) :
  dispatch b (use h :: layers) req
  = match b h req with
    | next => (h :: fst (dispatch b layers req),
               snd (dispatch b layers req))
    | next_err => ([h], failed h)
    | ended => ([h], responded h)
    end.
Proof.
  cbn [dispatch matches handler_of decode_fails].
  destruct (b h req); try reflexivity.
  now destruct (dispatch b layers req).
Qed.

Lemma first_layer_visited (h : handler) (layers : list layer)
    (req : request) :
  exists rest, fst (dispatch b (use h :: layers) req) = h :: rest.
Proof.
  cbn [dispatch matches handler_of decode_fails].
  destruct (b h req); cbn; eauto.
  destruct (dispatch b layers req). cbn. eauto.
Qed.

End Walk.

(** X20.  The auth route changes nothing else.  On every request whose
    path does not match /api/auth/*splat, the entry file that mounts the
    authentication provider and [src/index.ts] visit the same handlers and
    end the request in the same way. *)
Theorem auth_route_changes_nothing_else (e : externals) (req : request) :
  matches_pattern (wildcard "/api/auth/") (req_path req) = false ->
  IndexAuth.handle e req = Index.handle e req.
Proof.
  intro H. walk. rewrite H. reflexivity.
Qed.

Lemma auth_route_changes_nothing_else_witness :
  matches_pattern (wildcard "/api/auth/") (req_path list_subjects) = false
  /\ IndexAuth.handle dev list_subjects = Index.handle dev list_subjects.
Proof.
  assert (H : matches_pattern (wildcard "/api/auth/")
                (req_path list_subjects) = false)
    by (vm_compute; reflexivity).
  split; [exact H|].
  exact (auth_route_changes_nothing_else dev list_subjects H).
Defined.

Lemma cors_not_later (e : externals) (layers : list layer) (req : request) :
  ~ In cors (map handler_of layers) ->
  snd (dispatch (behave e) layers req) <> responded cors.
Proof.
  intros Hn H. apply Hn.
  assert (Hin : In cors (fst (dispatch (behave e) layers req)))
    by (apply outcome_of_visited; now left).
  apply visited_through_layer in Hin as (l & Hl & Hh & _).
  apply in_map_iff. eauto.
Qed.

(** X21.  What the CORS layer answers.  In both entry files a request is
    answered by the CORS layer exactly when FRONTEND_URL is set and the
    request is an OPTIONS request; every such request ends there, whatever
    its path. *)
Theorem cors_answers_only_preflights (e : externals) (req : request) :
  (snd (Index.handle e req) = responded cors
   <-> truthy (FRONTEND_URL e) = true /\ req_method req = OPTIONS)
  /\
  (snd (IndexAuth.handle e req) = responded cors
   <-> truthy (FRONTEND_URL e) = true /\ req_method req = OPTIONS).
Proof.
  assert (Hc : cors_signal (FRONTEND_URL e) req = ended
               <-> truthy (FRONTEND_URL e) = true /\ req_method req = OPTIONS).
  { unfold cors_signal.
    destruct (truthy (FRONTEND_URL e)), (req_method req);
      intuition discriminate. }
  assert (Hn : cors_signal (FRONTEND_URL e) req <> next_err).
  { unfold cors_signal.
    destruct (truthy (FRONTEND_URL e)), (req_method req); discriminate. }
  split; rewrite <- Hc.
  - unfold Index.handle, Index.app. rewrite dispatch_use.
    cbn [behave]. destruct (cors_signal (FRONTEND_URL e) req) eqn:E.
    + cbn [snd]. split; [|discriminate]. intro Ho. exfalso.
      revert Ho. apply cors_not_later. cbn. intuition discriminate.
    + congruence.
    + cbn. tauto.
  - unfold IndexAuth.handle, IndexAuth.app. rewrite dispatch_use.
    cbn [behave]. destruct (cors_signal (FRONTEND_URL e) req) eqn:E.
    + cbn [snd]. split; [|discriminate]. intro Ho. exfalso.
      revert Ho. apply cors_not_later. cbn. intuition discriminate.
    + congruence.
    + cbn. tauto.
Qed.

Lemma cors_answers_only_preflights_witness :
  truthy (FRONTEND_URL dev) = true
  /\ req_method subjects_preflight = OPTIONS
  /\ snd (Index.handle dev subjects_preflight) = responded cors
  /\ snd (IndexAuth.handle dev subjects_preflight) = responded cors.
Proof.
  destruct (cors_answers_only_preflights dev subjects_preflight)
    as [H1 H2].
  split; [reflexivity|]. split; [reflexivity|].
  split; [apply H1|apply H2]; split; reflexivity.
Defined.

(** X22.  Who runs when.  In both entry files every request visits the
    CORS layer first.  The subjects router runs only for requests under
    /api/subjects, the handler of the authentication provider only for
    requests that match /api/auth/*splat, and never in [src/index.ts]. *)
Theorem handlers_run_only_on_their_routes (e : externals) (req : request) :
  (exists rest, fst (Index.handle e req) = cors :: rest)
  /\ (exists rest, fst (IndexAuth.handle e req) = cors :: rest)
  /\ ~ In toNodeHandler_auth (fst (Index.handle e req))
  /\ (In subjectsRouter (fst (Index.handle e req)) ->
      under "/api/subjects" (req_path req) = true)
  /\ (In subjectsRouter (fst (IndexAuth.handle e req)) ->
      under "/api/subjects" (req_path req) = true)
  /\ (In toNodeHandler_auth (fst (IndexAuth.handle e req)) ->
      matches_pattern (wildcard "/api/auth/") (req_path req) = true).
Proof.
  split; [apply first_layer_visited|]. split; [apply first_layer_visited|].
  repeat split.
  - intro H. apply visited_through_layer in H as (l & Hl & Hh & _).
    cbn in Hl. destruct Hl as [<-|[<-|[<-|[<-|[]]]]]; discriminate.
  - intro H. apply visited_through_layer in H as (l & Hl & Hh & Hm).
    cbn in Hl. destruct Hl as [<-|[<-|[<-|[<-|[]]]]]; try discriminate.
    exact Hm.
  - intro H. apply visited_through_layer in H as (l & Hl & Hh & Hm).
    cbn in Hl. destruct Hl as [<-|[<-|[<-|[<-|[<-|[]]]]]]; try discriminate.
    exact Hm.
  - intro H. apply visited_through_layer in H as (l & Hl & Hh & Hm).
    cbn in Hl. destruct Hl as [<-|[<-|[<-|[<-|[<-|[]]]]]]; try discriminate.
    exact Hm.
Qed.

Lemma handlers_run_only_on_their_routes_witness :
  In subjectsRouter (fst (Index.handle dev list_subjects))
  /\ under "/api/subjects" (req_path list_subjects) = true
  /\ In toNodeHandler_auth (fst (IndexAuth.handle dev sign_in))
  /\ matches_pattern (wildcard "/api/auth/") (req_path sign_in) = true.
Proof.
  assert (H1 : In subjectsRouter (fst (Index.handle dev list_subjects)))
    by (vm_compute; tauto).
  assert (H2 : In toNodeHandler_auth (fst (IndexAuth.handle dev sign_in)))
    by (vm_compute; tauto).
  destruct (handlers_run_only_on_their_routes dev list_subjects)
    as (_ & _ & _ & Hs & _).
  destruct (handlers_run_only_on_their_routes dev sign_in)
    as (_ & _ & _ & _ & _ & Ha).
  split; [exact H1|]. split; [exact (Hs H1)|].
  split; [exact H2|exact (Ha H2)].
Defined.

(** X23.  No route.  In both entry files, a request that is neither under
    /api/subjects nor on the auth route, and that the CORS layer, the JSON
    parser and the security middleware pass on, visits these three and
    ends as not found. *)
Theorem unrouted_request_not_found (e : externals) (req : request) :
  under "/api/subjects" (req_path req) = false ->
  matches_pattern (wildcard "/api/auth/") (req_path req) = false ->
  cors_signal (FRONTEND_URL e) req = next ->
  json_signal req = next ->
  security e req = next ->
  Index.handle e req = ([cors; express_json; securityMiddleware], not_found)
  /\ IndexAuth.handle e req
     = ([cors; express_json; securityMiddleware], not_found).
Proof.
  intros Hu Ha Hc Hj Hs. split.
  - walk. rewrite Hu, Hc, Hj, Hs. reflexivity.
  - walk. rewrite Ha, Hu, Hc, Hj, Hs. reflexivity.
Qed.

Lemma unrouted_request_not_found_witness :
  under "/api/subjects" (req_path health_check) = false
  /\ matches_pattern (wildcard "/api/auth/") (req_path health_check) = false
  /\ Index.handle dev health_check
     = ([cors; express_json; securityMiddleware], not_found)
  /\ IndexAuth.handle dev health_check
     = ([cors; express_json; securityMiddleware], not_found).
Proof.
  assert (Hu : under "/api/subjects" (req_path health_check) = false)
    by (vm_compute; reflexivity).
  assert (Ha : matches_pattern (wildcard "/api/auth/")
                 (req_path health_check) = false)
    by (vm_compute; reflexivity).
  split; [exact Hu|]. split; [exact Ha|].
  exact (unrouted_request_not_found dev health_check Hu Ha
           eq_refl eq_refl eq_refl).
Defined.

(** X24.  A refused JSON body.  In [src/index.ts], and off the auth route in
    the other entry file, a request whose JSON body the parser refuses ends
    at the parser: the security middleware and the subjects router do not
    run.  On the auth route the parser is not reached: when the text the
    wildcard stands for decodes, the handler of the provider gets the
    request whatever its body; when it does not, Express answers 400 and
    neither the handler nor the parser runs. *)
Theorem refused_json_stops_the_request (e : externals) (req : request) :
  req_body req = JsonBody false ->
  cors_signal (FRONTEND_URL e) req = next ->
  Index.handle e req = ([cors; express_json], failed express_json)
  /\ (matches_pattern (wildcard "/api/auth/") (req_path req) = false ->
      IndexAuth.handle e req = ([cors; express_json], failed express_json))
  /\ (matches_pattern (wildcard "/api/auth/") (req_path req) = true ->
      IndexAuth.handle e req
      = if decodes (splat "/api/auth/" (req_path req))
        then ([cors; toNodeHandler_auth],
              if auth_answers e req then responded toNodeHandler_auth
              else failed toNodeHandler_auth)
        else ([cors], bad_request)).
Proof.
  intros Hb Hc. split; [|split].
  - walk. unfold json_signal. rewrite Hc, Hb. reflexivity.
  - intro Ha. walk. unfold json_signal. rewrite Hc, Ha, Hb. reflexivity.
  - intro Ha. walk. rewrite Hc, Ha.
    destruct (decodes (splat "/api/auth/" (req_path req))),
      (auth_answers e req); reflexivity.
Qed.

Lemma refused_json_stops_the_request_witness :
  req_body broken_post = JsonBody false
  /\ cors_signal (FRONTEND_URL dev) broken_post = next
  /\ Index.handle dev broken_post
     = ([cors; express_json], failed express_json)
  /\ IndexAuth.handle dev broken_sign_in
     = ([cors; toNodeHandler_auth], responded toNodeHandler_auth).
Proof.
  split; [reflexivity|]. split; [reflexivity|]. split.
  - exact (proj1 (refused_json_stops_the_request dev broken_post
                    eq_refl eq_refl)).
  - assert (Ha : matches_pattern (wildcard "/api/auth/")
                   (req_path broken_sign_in) = true)
      by (vm_compute; reflexivity).
    exact (proj2 (proj2 (refused_json_stops_the_request dev broken_sign_in
                           eq_refl eq_refl)) Ha).
Defined.

End PipelineMore.
